(** * Event normalizer of the echo.lu kiosk display

    A shallow embedding of [fetchEchoData], from the script block of the
    page component: the callback that turns one raw API record into a
    display event, the sort and the filter applied to the batch, and the
    string and date primitives they rely on.  [app.vue] holds an earlier
    variant of the same function; its description sanitizer, its weekly
    resolver, its date formatting and its URL are the same code.

    Conventions of the embedding.
    - A JavaScript string is the list of its UTF-16 code units.
    - [undefined] (an absent property) is [None].
    - A [Date] is its time value in milliseconds since the epoch; an
      Invalid Date is [None].  The local time zone is a fixed offset [tz]
      (no daylight-saving transitions).
    - An exception is the [Throw] case of [Result]. *)

From Stdlib Require Import ZArith NArith List String Ascii Bool Lia.
From Stdlib Require Import Sorted Permutation DecimalString.
Import ListNotations.

Local Open Scope Z_scope.

(* ================================================================== *)
(** * JavaScript strings *)
(* ================================================================== *)

Module Js.

Definition jsstring := list N.

(** An ASCII literal of the source as code units. *)
Fixpoint lit (s : string) : jsstring :=
  match s with
  | EmptyString => []
  | String c r => N_of_ascii c :: lit r
  end.
Arguments lit _%_string.

Fixpoint str_eqb (a b : jsstring) : bool :=
  match a, b with
  | [], [] => true
  | x :: a', y :: b' => N.eqb x y && str_eqb a' b'
  | _, _ => false
  end.

(** Truthiness of a value that is a string or [undefined]. *)
Definition truthy (v : option jsstring) : bool :=
  match v with
  | Some (_ :: _) => true
  | _ => false
  end.

(** [a || b] *)
Definition or_else (a b : option jsstring) : option jsstring :=
  if truthy a then a else b.

(** [a || 'literal'] at the end of a chain: the result is a string. *)
Definition or_lit (a : option jsstring) (d : jsstring) : jsstring :=
  match a with
  | Some (c :: r) => c :: r
  | _ => d
  end.

(** [a ?? ''] *)
Definition nullish_or_empty (a : option jsstring) : jsstring :=
  match a with
  | Some s => s
  | None => []
  end.

(** [Array.prototype.join] *)
Fixpoint join (sep : jsstring) (parts : list jsstring) : jsstring :=
  match parts with
  | [] => []
  | [p] => p
  | p :: rest => p ++ sep ++ join sep rest
  end.

(** [String.prototype.startsWith] *)
Fixpoint startsWith (s p : jsstring) : bool :=
  match p, s with
  | [], _ => true
  | x :: p', y :: s' => N.eqb x y && startsWith s' p'
  | _ :: _, [] => false
  end.

(** ** Character classes of the regular expressions *)

(** WhiteSpace and LineTerminator code points: the class [\s], and what
    [String.prototype.trim] removes. *)
Definition is_space (c : N) : bool :=
  ((9 <=? c) && (c <=? 13) || (c =? 32) || (c =? 160) || (c =? 5760)
   || (8192 <=? c) && (c <=? 8202) || (c =? 8232) || (c =? 8233)
   || (c =? 8239) || (c =? 8287) || (c =? 12288) || (c =? 65279))%N.

(** What [.] does not match (no [s] flag). *)
Definition is_line_terminator (c : N) : bool :=
  ((c =? 10) || (c =? 13) || (c =? 8232) || (c =? 8233))%N.

(** Canonicalize of the [i] flag without [u]: upper-casing, which never
    maps a code unit above 127 to an ASCII one.  The patterns compared
    through [canon] are ASCII, so code units above 127 are left alone. *)
Definition canon (c : N) : N :=
  if ((97 <=? c) && (c <=? 122))%N then (c - 32)%N else c.

Fixpoint startsWith_ci (s p : jsstring) : bool :=
  match p, s with
  | [], _ => true
  | x :: p', y :: s' => N.eqb (canon x) (canon y) && startsWith_ci s' p'
  | _ :: _, [] => false
  end.

(** ** Regular expressions as matchers

    A matcher is one attempt of a regular expression at the head of the
    input; it answers with the number of code units consumed. *)

Definition matcher := jsstring -> option nat.

(** [s.replace(re, rep)] for a global [re] and a replacement without [$]
    patterns.  [skip] counts the code units of the current match that are
    still to be dropped; an empty match emits [rep] and steps over one
    code unit, as lastIndex does. *)
Fixpoint replace_g (m : matcher) (rep : jsstring) (skip : nat) (s : jsstring)
  {struct s} : jsstring :=
  match skip with
  | S k =>
      match s with
      | [] => []
      | _ :: s' => replace_g m rep k s'
      end
  | O =>
      match m s with
      | Some (S k) =>
          rep ++ match s with
                 | [] => []
                 | _ :: s' => replace_g m rep k s'
                 end
      | Some O =>
          rep ++ match s with
                 | [] => []
                 | c :: s' => c :: replace_g m rep 0 s'
                 end
      | None =>
          match s with
          | [] => []
          | c :: s' => c :: replace_g m rep 0 s'
          end
      end
  end.

(** The matched substrings of [s.match(re)] for a global [re] whose
    matches are never empty; the empty list stands for [null]. *)
Fixpoint match_g (m : matcher) (skip : nat) (s : jsstring) {struct s}
  : list jsstring :=
  match skip with
  | S k =>
      match s with
      | [] => []
      | _ :: s' => match_g m k s'
      end
  | O =>
      match m s with
      | Some (S k) =>
          firstn (S k) s :: match s with
                            | [] => []
                            | _ :: s' => match_g m k s'
                            end
      | _ =>
          match s with
          | [] => []
          | _ :: s' => match_g m 0 s'
          end
      end
  end.

(** Index of the first code unit equal to [c]. *)
Fixpoint index_of (c : N) (s : jsstring) : option nat :=
  match s with
  | [] => None
  | x :: r => if N.eqb x c then Some O else option_map S (index_of c r)
  end.

(** Index of the first occurrence of [p], compared through [canon]. *)
Fixpoint find_ci (p s : jsstring) {struct s} : option nat :=
  if startsWith_ci s p then Some O
  else match s with
       | [] => None
       | _ :: r => option_map S (find_ci p r)
       end.

(** [.*?] followed by the literal [close]: the shortest run of code units
    that are not line terminators. *)
Fixpoint lazy_dot_until (close s : jsstring) {struct s} : option nat :=
  if startsWith s close then Some O
  else match s with
       | [] => None
       | c :: r =>
           if is_line_terminator c then None
           else option_map S (lazy_dot_until close r)
       end.

(** [/<[^>]*>/]: the greedy class stops at the first [>]. *)
Definition m_tag : matcher := fun s =>
  match s with
  | 60%N :: r => option_map (fun k => (k + 2)%nat) (index_of 62 r)
  | _ => None
  end.

(** [/<style[^>]*>[\s\S]*?<\/style>/i] *)
Definition m_style : matcher := fun s =>
  if startsWith_ci s (lit "<style") then
    let r := skipn 6 s in
    match index_of 62 r with
    | Some k =>
        match find_ci (lit "</style>") (skipn (S k) r) with
        | Some j => Some (6 + S k + j + 8)%nat
        | None => None
        end
    | None => None
    end
  else None.

(** [/<p>(.*?)<\/p>/]: the length of the captured group. *)
Definition p_group (s : jsstring) : option nat :=
  if startsWith s (lit "<p>") then lazy_dot_until (lit "</p>") (skipn 3 s)
  else None.

Definition m_p : matcher := fun s =>
  option_map (fun k => (3 + k + 4)%nat) (p_group s).

(** [s.replace(/<p>(.*?)<\/p>/, '$1')]: the first match only. *)
Fixpoint replace_p_first (s : jsstring) : jsstring :=
  match p_group s with
  | Some k => firstn k (skipn 3 s) ++ skipn (3 + k + 4) s
  | None =>
      match s with
      | [] => []
      | c :: r => c :: replace_p_first r
      end
  end.

(** [/\s+/] *)
Fixpoint count_space (s : jsstring) : nat :=
  match s with
  | c :: r => if is_space c then S (count_space r) else O
  | [] => O
  end.

Definition m_ws : matcher := fun s =>
  match count_space s with
  | O => None
  | n => Some n
  end.

(** A literal pattern. *)
Definition m_lit (p : jsstring) : matcher := fun s =>
  if startsWith s p then Some (List.length p) else None.

(** [String.prototype.trim] *)
Fixpoint trimStart (s : jsstring) : jsstring :=
  match s with
  | c :: r => if is_space c then trimStart r else s
  | [] => []
  end.

Definition trim (s : jsstring) : jsstring :=
  rev (trimStart (rev (trimStart s))).

(** [parseInt(s)] without a radix: leading white space, a sign, the [0x]
    prefix, then the longest run of digits; [None] is NaN.  The value is
    the mathematical integer (the source compares it with an hour). *)
Definition digit_val (radix : N) (c : N) : option N :=
  let v :=
    if ((48 <=? c) && (c <=? 57))%N then Some (c - 48)%N
    else if ((97 <=? c) && (c <=? 122))%N then Some (c - 87)%N
    else if ((65 <=? c) && (c <=? 90))%N then Some (c - 55)%N
    else None in
  match v with
  | Some d => if (d <? radix)%N then Some d else None
  | None => None
  end.

Fixpoint parse_digits (radix : N) (acc : option N) (s : jsstring) : option N :=
  match s with
  | [] => acc
  | c :: r =>
      match digit_val radix c with
      | Some d =>
          parse_digits radix
            (Some (match acc with Some a => a * radix + d | None => d end)%N) r
      | None => acc
      end
  end.

Definition parseInt (s : jsstring) : option Z :=
  let s1 := trimStart s in
  let '(sign, s2) :=
    match s1 with
    | 45%N :: r => (-1, r)
    | 43%N :: r => (1, r)
    | _ => (1, s1)
    end in
  let '(radix, s3) :=
    match s2 with
    | 48%N :: 120%N :: r => (16%N, r)
    | 48%N :: 88%N :: r => (16%N, r)
    | _ => (10%N, s2)
    end in
  option_map (fun n => sign * Z.of_N n) (parse_digits radix None s3).

(** [s.split(':')[0]] *)
Fixpoint before_colon (s : jsstring) : jsstring :=
  match s with
  | [] => []
  | c :: r => if N.eqb c 58 then [] else c :: before_colon r
  end.

End Js.

Import Js.

(* ================================================================== *)
(** * Description sanitizer *)
(* ================================================================== *)

(** The paragraph extraction:
    [s.match(/<p>(.*?)<\/p>/g)?.map(...)?.join('\n\n') || ''] *)
Definition extract_paragraphs (s : jsstring) : jsstring :=
  match match_g m_p 0 s with
  | [] => []
  | ms =>
      join [10%N; 10%N]
        (map (fun m => replace_g m_tag [] 0 (replace_p_first m)) ms)
  end.

(** [rawDescription] after the chain of replacements, from
    [initialDescription]. *)
Definition sanitize (initialDescription : jsstring) : jsstring :=
  let d1 := replace_g m_style [] 0 initialDescription in
  let d2 := extract_paragraphs d1 in
  let d3 := replace_g m_ws (lit " ") 0 (trim (replace_g m_tag [] 0 d2)) in
  let d4 := replace_g (m_lit [65279%N]) (lit "<br/><br/>") 0 d3 in
  replace_g (m_lit (lit "&nbsp;")) (lit " ") 0 d4.

(* ================================================================== *)
(** * Exceptions *)
(* ================================================================== *)

Inductive JsError := TypeError | RangeError.

Inductive Result (A : Type) : Type :=
| Ok (a : A)
| Throw (e : JsError).
Arguments Ok {A} a.
Arguments Throw {A} e.

Definition bind {A B} (r : Result A) (k : A -> Result B) : Result B :=
  match r with
  | Ok a => k a
  | Throw e => Throw e
  end.

Notation "'let*' x ':=' r 'in' k" := (bind r (fun x => k))
  (at level 10, x pattern, r at level 100, k at level 200).

(** Reading a property of [undefined] throws a TypeError. *)
Definition deref {A} (o : option A) : Result A :=
  match o with
  | Some a => Ok a
  | None => Throw TypeError
  end.

(** [Array.prototype.map] with a callback that may throw: the first
    exception ends the whole call.  The callback is given the position of
    the element. *)
Fixpoint map_throwing {A B} (f : nat -> A -> Result B) (i : nat) (l : list A)
  : Result (list B) :=
  match l with
  | [] => Ok []
  | a :: r =>
      let* b := f i a in
      let* bs := map_throwing f (S i) r in
      Ok (b :: bs)
  end.

(* ================================================================== *)
(** * Dates *)
(* ================================================================== *)

(** [None] is an Invalid Date (time value NaN). *)
Definition JsDate := option Z.

(** [a >= b] on two dates: false as soon as one is invalid. *)
Definition date_ge (a b : JsDate) : bool :=
  match a, b with
  | Some x, Some y => y <=? x
  | _, _ => false
  end.

(** date-fns [isBefore] *)
Definition isBefore (a b : JsDate) : bool :=
  match a, b with
  | Some x, Some y => x <? y
  | _, _ => false
  end.

Definition msPerDay : Z := 86400000.
Definition msPerHour : Z := 3600000.
Definition msPerMinute : Z := 60000.

(** Year, month (1 to 12) and day of the month of a day number counted
    from 1970-01-01, in the proleptic Gregorian calendar. *)
Definition civil_from_days (days : Z) : Z * Z * Z :=
  let z := days + 719468 in
  let era := z / 146097 in
  let doe := z - era * 146097 in
  let yoe := (doe - doe / 1460 + doe / 36524 - doe / 146096) / 365 in
  let doy := doe - (365 * yoe + yoe / 4 - yoe / 100) in
  let mp := (5 * doy + 2) / 153 in
  let d := doy - (153 * mp + 2) / 5 + 1 in
  let m := if mp <? 10 then mp + 3 else mp - 9 in
  let y := yoe + era * 400 + (if m <=? 2 then 1 else 0) in
  (y, m, d).

(** date-fns [addLeadingZeros] *)
Definition decimal (n : Z) : jsstring :=
  lit (NilEmpty.string_of_uint (N.to_uint (Z.to_N n))).

Definition addLeadingZeros (number : Z) (targetLength : nat) : jsstring :=
  let digits := decimal (Z.abs number) in
  (if number <? 0 then lit "-" else [])
    ++ repeat 48%N (targetLength - List.length digits) ++ digits.

Inductive Locale := fr | de | enUS.

(** The wide weekday names of the three date-fns locales. *)
Definition weekday_name (l : Locale) (day : Z) : jsstring :=
  match l, day with
  | enUS, 0 => lit "Sunday"   | enUS, 1 => lit "Monday"
  | enUS, 2 => lit "Tuesday"  | enUS, 3 => lit "Wednesday"
  | enUS, 4 => lit "Thursday" | enUS, 5 => lit "Friday"
  | enUS, _ => lit "Saturday"
  | fr, 0 => lit "dimanche" | fr, 1 => lit "lundi"
  | fr, 2 => lit "mardi"    | fr, 3 => lit "mercredi"
  | fr, 4 => lit "jeudi"    | fr, 5 => lit "vendredi"
  | fr, _ => lit "samedi"
  | de, 0 => lit "Sonntag"    | de, 1 => lit "Montag"
  | de, 2 => lit "Dienstag"   | de, 3 => lit "Mittwoch"
  | de, 4 => lit "Donnerstag" | de, 5 => lit "Freitag"
  | de, _ => lit "Samstag"
  end.

(** [const locales = { fr: fr, de: de, en: enUS }] and [locales[lang]]. *)
Definition locales (lang : jsstring) : option Locale :=
  if str_eqb lang (lit "fr") then Some fr
  else if str_eqb lang (lit "de") then Some de
  else if str_eqb lang (lit "en") then Some enUS
  else None.

Section LocalTime.

(** Offset of local time from UTC, in milliseconds. *)
Variable tz : Z.

Definition local_day (t : Z) : Z := (t + tz) / msPerDay.

(** [Date.prototype.getDay]: 1970-01-01 was a Thursday. *)
Definition getDay (t : Z) : Z := (local_day t + 4) mod 7.

Definition getHours (t : Z) : Z := ((t + tz) mod msPerDay) / msPerHour.

Definition getMinutes (t : Z) : Z := ((t + tz) mod msPerHour) / msPerMinute.

(** date-fns [addDays], [addWeeks] and [setDay] (weeks start on Sunday). *)
Definition addDays (t amount : Z) : Z := t + amount * msPerDay.

Definition addWeeks (t amount : Z) : Z := addDays t (amount * 7).

Definition setDay (t day : Z) : Z := addDays t (day - getDay t).

(** Pattern ['dd/MM/yyyy'] *)
Definition ddMMyyyy (t : Z) : jsstring :=
  let '(y, m, d) := civil_from_days (local_day t) in
  let year := if 0 <? y then y else 1 - y in
  addLeadingZeros d 2 ++ lit "/" ++ addLeadingZeros m 2 ++ lit "/"
    ++ addLeadingZeros year 4.

(** Pattern ['HH:mm'] *)
Definition HHmm (t : Z) : jsstring :=
  addLeadingZeros (getHours t) 2 ++ lit ":" ++ addLeadingZeros (getMinutes t) 2.

(** Pattern ['EEEE'] with [{ locale: locales[lang] }]; date-fns falls back
    to its default locale, en-US, when the option is [undefined]. *)
Definition EEEE (lang : jsstring) (t : Z) : jsstring :=
  weekday_name (match locales lang with Some l => l | None => enUS end)
    (getDay t).

End LocalTime.

(* ================================================================== *)
(** * Raw records and display events *)
(* ================================================================== *)

(** An object used as a map from property names to values. *)
Definition JsObject (A : Type) := list (jsstring * A).

Fixpoint get {A} (o : JsObject A) (key : jsstring) : option A :=
  match o with
  | [] => None
  | (k, v) :: r => if str_eqb k key then Some v else get r key
  end.

(** [o?.p] *)
Definition chain {A B} (o : option A) (p : A -> option B) : option B :=
  match o with
  | Some a => p a
  | None => None
  end.

(** One day of an [openingHours] object. *)
Module OpeningHour.
Record entry := { from : option jsstring }.
End OpeningHour.

Definition OpeningHours := JsObject OpeningHour.entry.

(** The fields of an API record that the normalizer reads.  [from] and
    [to] of a date window stand for the instants their ISO-8601 strings
    denote (on which [new Date] and [parseISO] agree); an absent or
    unparsable one is an Invalid Date. *)
Module Raw.

Record DateObject := {
  from : JsDate;
  to : JsDate;
  openingHours : option OpeningHours
}.

Record Address := {
  number : option jsstring;
  street : option jsstring;
  postcode : option jsstring;
  town : option jsstring
}.
Record Location := { address : option Address }.
Record Venue := { location : option Location }.

Record Media := { url : option jsstring }.
Record Previews := { media : option Media }.
Record Picture := { previews : option Previews }.

Record SalesContact := {
  name : option jsstring;
  phone : option jsstring;
  email : option jsstring;
  website : option jsstring
}.

Record RawRecord := {
  id : jsstring;
  dates : option (list DateObject);
  venues : option (list Venue);
  pictures : option (list Picture);
  title : option (JsObject jsstring);
  description : option (JsObject jsstring);
  salesContact : option SalesContact
}.

End Raw.

(** [type Event] *)
Record Event := {
  id : jsstring;
  url : jsstring;
  title : jsstring;
  description : jsstring;
  date : Z;
  dateString : jsstring;
  address : jsstring;
  imageUrl : jsstring;
  absoluteImageUrl : jsstring;
  initialDescription : jsstring;
  contactName : option jsstring;
  phone : option jsstring;
  email : option jsstring;
  website : option jsstring;
  record : Raw.RawRecord;
  upcomingEvents : option jsstring;
  organizerInformation : option jsstring
}.

(* ================================================================== *)
(** * Date window of a record *)
(* ================================================================== *)

(** The three variables [dateFrom], [dateTo] and [openingHours]. *)
Record Window := {
  dateFrom : JsDate;
  dateTo : JsDate;
  openingHours : option OpeningHours
}.

Definition window_of (d : Raw.DateObject) : Window :=
  {| dateFrom := Raw.from d; dateTo := Raw.to d;
     openingHours := Raw.openingHours d |}.

(** The [for ... of record.dates] loop; [cur] is [None] while the three
    variables are still [undefined], [len] is [record.dates.length]. *)
Fixpoint select_loop (now : Z) (len : nat) (ds : list Raw.DateObject)
  (cur : option Window) : option Window :=
  match ds with
  | [] => cur
  | d :: r =>
      if date_ge (Raw.from d) (Some now) || Nat.eqb len 1
      then Some (window_of d)
      else select_loop now len r (Some (window_of d))
  end.

(** A Date object is truthy even when invalid, so the test
    [!dateFrom || !dateTo] holds only if the loop never ran. *)
Definition select_window (now : Z) (ds : list Raw.DateObject) : Window :=
  match select_loop now (List.length ds) ds None with
  | Some w => w
  | None => {| dateFrom := Some now; dateTo := Some now; openingHours := None |}
  end.

(* ================================================================== *)
(** * The normalizer *)
(* ================================================================== *)

Definition daysOfWeek : list jsstring :=
  [lit "sunday"; lit "monday"; lit "tuesday"; lit "wednesday";
   lit "thursday"; lit "friday"; lit "saturday"].

(** [a > b] where [b] may be NaN *)
Definition gt_nan (a : Z) (b : option Z) : bool :=
  match b with
  | Some v => v <? a
  | None => false
  end.

(** [nextDate] and [nextTime]: both [null] ([None]) until a candidate is
    accepted; [nextTime] is then [openingHours[day].from], which may be
    [undefined]. *)
Definition NextOccurrence := option (Z * option jsstring).

Definition upcomingEventsTranslation : JsObject jsstring :=
  [(lit "fr", [201%N] ++ lit "v" ++ [233%N] ++ lit "nements " ++ [224%N] ++ lit " venir");
   (lit "de", lit "Kommende Ereignisse");
   (lit "en", lit "Upcoming Events")].

Definition organizerTranslation : JsObject jsstring :=
  [(lit "fr", lit "Informations sur l'organisateur");
   (lit "de", lit "Infos zum Organisator");
   (lit "en", lit "Organizer Information")].

(** The literal ['Événement'] *)
Definition title_placeholder : jsstring :=
  [201%N] ++ lit "v" ++ [233%N] ++ lit "nement".

(** [obj[lang] || obj.fr || obj.de || obj.en] *)
Definition locale_chain (obj : JsObject jsstring) (lang : jsstring)
  : option jsstring :=
  or_else (or_else (or_else (get obj lang) (get obj (lit "fr")))
             (get obj (lit "de")))
    (get obj (lit "en")).

Definition resolve_title (obj : JsObject jsstring) (lang : jsstring) : jsstring :=
  or_lit (locale_chain obj lang) title_placeholder.

Definition resolve_description (obj : JsObject jsstring) (lang : jsstring)
  : jsstring :=
  or_lit (locale_chain obj lang) [].

(** [imageUrl ? (imageUrl.startsWith('http') ? imageUrl
                 : `https://echo.lu${imageUrl}`) : ''] *)
Definition absolute_url (imageUrl : jsstring) : jsstring :=
  match imageUrl with
  | [] => []
  | _ => if startsWith imageUrl (lit "http") then imageUrl
         else lit "https://echo.lu" ++ imageUrl
  end.

(** [record.pictures[0]?.previews?.media?.url || ''] on the array. *)
Definition first_preview_url (ps : list Raw.Picture) : jsstring :=
  or_lit (chain (chain (chain (hd_error ps) Raw.previews) Raw.media) Raw.url) [].

(** The address line, from [record.venues]. *)
Definition compose_address (vs : list Raw.Venue) : jsstring :=
  let addr := chain (chain (hd_error vs) Raw.location) Raw.address in
  let number := nullish_or_empty (chain addr Raw.number) in
  let street := nullish_or_empty (chain addr Raw.street) in
  let postcode := nullish_or_empty (chain addr Raw.postcode) in
  let town := nullish_or_empty (chain addr Raw.town) in
  number ++ lit " " ++ street ++ lit ", " ++ postcode ++ lit " " ++ town.

(** [`https://www.echo.lu/en/experiences/${id}`] *)
Definition experience_url (id : jsstring) : jsstring :=
  lit "https://www.echo.lu/en/experiences/" ++ id.

(** Stable insertion by [date]: what [Array.prototype.sort] gives with the
    comparator [a.date.getTime() - b.date.getTime()] on valid dates. *)
Fixpoint insert_by_date (e : Event) (l : list Event) : list Event :=
  match l with
  | [] => [e]
  | x :: r => if date e <=? date x then e :: l else x :: insert_by_date e r
  end.

Definition sort_by_date (l : list Event) : list Event :=
  fold_right insert_by_date [] l.

Definition has_image (e : Event) : bool :=
  negb (str_eqb (absoluteImageUrl e) []).

Section Normalizer.

Variable tz : Z.

(** Whether the candidate of weekday [index] moves to next week because
    today's opening hour has passed.  [.from.split] is reached only when
    [index === now.getDay()], and throws if [from] is [undefined]. *)
Definition past_todays_opening (now : Z) (index : Z) (e : OpeningHour.entry)
  : Result bool :=
  if index =? getDay tz now then
    let* from := deref (OpeningHour.from e) in
    Ok (gt_nan (getHours tz now) (parseInt (before_colon from)))
  else Ok false.

(** [possibleDate] after the two conditional [addWeeks]. *)
Definition candidate (now : Z) (index : Z) (past : bool) : Z :=
  let checkDate := addWeeks now 0 in
  let possibleDate := setDay tz checkDate index in
  let possibleDate := if past then addWeeks possibleDate 1 else possibleDate in
  if index <? getDay tz now then addWeeks possibleDate 1 else possibleDate.

(** The range test against [record.dates[0]]. *)
Definition in_range (first : Raw.DateObject) (possibleDate : Z) : bool :=
  negb (isBefore (Some possibleDate) (Raw.from first))
  && negb (isBefore (Raw.to first) (Some possibleDate)).

(** [nextDate === null || isBefore(possibleDate, nextDate)] *)
Definition improves (possibleDate : Z) (st : NextOccurrence) : bool :=
  match st with
  | None => true
  | Some (nextDate, _) => possibleDate <? nextDate
  end.

(** Body of the loop over [daysOfWeek.entries()]; [ds] is
    [record.dates], whose first element is read for the range test. *)
Definition try_day (now : Z) (oh : OpeningHours) (ds : list Raw.DateObject)
  (index : Z) (day : jsstring) (st : NextOccurrence) : Result NextOccurrence :=
  match get oh day with
  | None => Ok st
  | Some e =>
      let* past := past_todays_opening now index e in
      let possibleDate := candidate now index past in
      let* first := deref (hd_error ds) in
      if in_range first possibleDate && improves possibleDate st
      then Ok (Some (possibleDate, OpeningHour.from e))
      else Ok st
  end.

Fixpoint try_days (now : Z) (oh : OpeningHours) (ds : list Raw.DateObject)
  (index : Z) (days : list jsstring) (st : NextOccurrence)
  : Result NextOccurrence :=
  match days with
  | [] => Ok st
  | day :: rest =>
      let* st' := try_day now oh ds index day st in
      try_days now oh ds (index + 1) rest st'
  end.

(** The outer [for (let i = 0; i < 7; i++)]: the same pass, [n] times. *)
Fixpoint passes (n : nat) (now : Z) (oh : OpeningHours)
  (ds : list Raw.DateObject) (st : NextOccurrence) : Result NextOccurrence :=
  match n with
  | O => Ok st
  | S k =>
      let* st' := try_days now oh ds 0 daysOfWeek st in
      passes k now oh ds st'
  end.

(** The ["From ... to ..."] string of two valid dates. *)
Definition from_to_string (dateFrom dateTo : Z) : jsstring :=
  lit "From " ++ ddMMyyyy tz dateFrom ++ lit " to " ++ ddMMyyyy tz dateTo.

(** Recurring events: [dateString] and [date].  date-fns [format] throws
    a RangeError on an Invalid Date, which the fallback branch meets when
    a bound of the selected window is invalid. *)
Definition recurring (lang : jsstring) (now : Z) (ds : list Raw.DateObject)
  (w : Window) (oh : OpeningHours) : Result (jsstring * Z) :=
  let* next := passes 7 now oh ds None in
  match next with
  | Some (nextDate, Some (c :: r)) =>
      Ok (EEEE tz lang nextDate ++ lit ", " ++ ddMMyyyy tz nextDate
            ++ lit ", " ++ (c :: r),
          nextDate)
  | _ =>
      match dateFrom w, dateTo w with
      | Some f, Some t => Ok (from_to_string f t, f)
      | _, _ => Throw RangeError
      end
  end.

(** Non-recurring events: [dateString] and [date].  Both dates go through
    [format], which throws a RangeError on an Invalid Date. *)
Definition non_recurring (lang : jsstring) (w : Window) : Result (jsstring * Z) :=
  match dateFrom w, dateTo w with
  | Some f, Some t =>
      let timeDiff := t - f in
      let moreThan24Hours := 24 * 60 * 60 * 1000 <? timeDiff in
      let day := EEEE tz lang f in
      let startDate := ddMMyyyy tz f in
      let endDate := ddMMyyyy tz t in
      let startTime := HHmm tz f in
      let endTime := HHmm tz t in
      Ok (if moreThan24Hours
          then lit "From " ++ startDate ++ lit " to " ++ endDate
          else if str_eqb startDate endDate
               then day ++ lit ", " ++ startDate ++ lit ", " ++ startTime
               else day ++ lit ", " ++ startDate ++ lit ", " ++ startTime
                      ++ lit "-" ++ endTime,
          f)
  | _, _ => Throw RangeError
  end.

Definition schedule (lang : jsstring) (now : Z) (ds : list Raw.DateObject)
  : Result (jsstring * Z) :=
  let w := select_window now ds in
  match openingHours w with
  | Some oh => recurring lang now ds w oh
  | None => non_recurring lang w
  end.

(** The callback of [data.records.map]. *)
Definition normalize (lang : jsstring) (now : Z) (record : Raw.RawRecord)
  : Result Event :=
  let* ds := deref (Raw.dates record) in
  let* (dateString, date) := schedule lang now ds in
  let id := Raw.id record in
  let* vs := deref (Raw.venues record) in
  let address := compose_address vs in
  let* ps := deref (Raw.pictures record) in
  let imageUrl := first_preview_url ps in
  let* titles := deref (Raw.title record) in
  let title := resolve_title titles lang in
  let upcomingEvents := get upcomingEventsTranslation lang in
  let organizerInformation := get organizerTranslation lang in
  let salesContact := Raw.salesContact record in
  let contactName := chain salesContact Raw.name in
  let phone := chain salesContact Raw.phone in
  let email := chain salesContact Raw.email in
  let website := chain salesContact Raw.website in
  let* descriptions := deref (Raw.description record) in
  let initialDescription := resolve_description descriptions lang in
  let description := sanitize initialDescription in
  let absoluteImageUrl := absolute_url imageUrl in
  Ok {| id := id;
        url := experience_url id;
        title := title;
        description := description;
        date := date;
        dateString := dateString;
        address := address;
        imageUrl := imageUrl;
        absoluteImageUrl := absoluteImageUrl;
        initialDescription := initialDescription;
        contactName := contactName;
        phone := phone;
        email := email;
        website := website;
        record := record;
        upcomingEvents := upcomingEvents;
        organizerInformation := organizerInformation |}.

(** [data.records.map(...).sort(...).filter(...)]; the callback reads the
    clock once per record: [clock i] is the reading for the record at
    position [i]. *)
Definition events_of_records (lang : jsstring) (clock : nat -> Z)
  (records : list Raw.RawRecord) : Result (list Event) :=
  let* mapped := map_throwing (fun i r => normalize lang (clock i) r) 0 records in
  Ok (filter has_image (sort_by_date mapped)).

End Normalizer.

(* ================================================================== *)
(** * Vocabulary of the statements *)
(* ================================================================== *)

(** A code unit that is white space only if it is the plain space. *)
Definition plain (c : N) : Prop := is_space c = true -> c = 32%N.


Definition now_window (now : Z) : Window :=
  {| dateFrom := Some now; dateTo := Some now; openingHours := None |}.

(** The chain in words: [result] is the value under the requested locale
    if that is a non-empty string, else the French one, else the German
    one, else the English one, else [fallback]; and as soon as one of the
    three locale values is a non-empty string, [result] is one of them
    (so [fallback] is reached only when all three are absent or empty). *)
Definition follows_chain (obj : JsObject jsstring) (lang fallback result : jsstring)
  : Prop :=
  let v k := get obj k in
  let set k := truthy (v k) = true in
  let unset k := truthy (v k) = false in
  (set lang -> v lang = Some result)
  /\ (unset lang -> set (lit "fr") -> v (lit "fr") = Some result)
  /\ (unset lang -> unset (lit "fr") -> set (lit "de") ->
      v (lit "de") = Some result)
  /\ (unset lang -> unset (lit "fr") -> unset (lit "de") -> set (lit "en") ->
      v (lit "en") = Some result)
  /\ (unset (lit "fr") -> unset (lit "de") -> unset (lit "en") ->
      result = fallback)
  /\ (set (lit "fr") \/ set (lit "de") \/ set (lit "en") ->
      result <> []
      /\ (v (lit "fr") = Some result \/ v (lit "de") = Some result
          \/ v (lit "en") = Some result)).

(** The order of the sort. *)
Definition by_date (a b : Event) : Prop := date a <= date b.

(** Keeping the earlier of the current choice and one more accepted
    candidate: the update guarded by
    [nextDate === null || isBefore(possibleDate, nextDate)]. *)
Definition pick (st : NextOccurrence) (x : Z * option jsstring)
  : NextOccurrence :=
  if improves (fst x) st then Some x else st.

(** The candidate that one weekday contributes, with its opening time,
    if the weekday has an entry and the candidate passes the range test. *)
Definition day_offer (tz now : Z) (oh : OpeningHours) (ds : list Raw.DateObject)
  (index : Z) (day : jsstring) : Result (list (Z * option jsstring)) :=
  match get oh day with
  | None => Ok []
  | Some e =>
      let* past := past_todays_opening tz now index e in
      let c := candidate tz now index past in
      let* first := deref (hd_error ds) in
      Ok (if in_range first c then [(c, OpeningHour.from e)] else [])
  end.

Fixpoint offers (tz now : Z) (oh : OpeningHours) (ds : list Raw.DateObject)
  (index : Z) (days : list jsstring) : Result (list (Z * option jsstring)) :=
  match days with
  | [] => Ok []
  | day :: rest =>
      let* a := day_offer tz now oh ds index day in
      let* b := offers tz now oh ds (index + 1) rest in
      Ok (a ++ b)
  end.

(** The accepted candidates of one pass, in Sunday-first order. *)
Definition accepted_candidates (tz now : Z) (oh : OpeningHours)
  (ds : list Raw.DateObject) : Result (list (Z * option jsstring)) :=
  offers tz now oh ds 0 daysOfWeek.

(** [st] holds a date that is at or before [c]. *)
Definition at_most (st : NextOccurrence) (c : Z) : Prop :=
  exists c' nt, st = Some (c', nt) /\ c' <= c.

Definition hours_have_from (oh : OpeningHours) : Prop :=
  Forall (fun kv => OpeningHour.from (snd kv) <> None) oh.

(** A date window with both bounds valid and, if it has opening hours, a
    [from] time on each day. *)
Definition window_ok (d : Raw.DateObject) : Prop :=
  Raw.from d <> None /\ Raw.to d <> None
  /\ match Raw.openingHours d with
     | Some oh => hours_have_from oh
     | None => True
     end.

(** The arrays [dates], [venues] and [pictures] and the objects [title]
    and [description] are present (possibly empty). *)
Definition containers_present (r : Raw.RawRecord) : Prop :=
  Raw.venues r <> None /\ Raw.pictures r <> None
  /\ Raw.title r <> None /\ Raw.description r <> None
  /\ exists ds, Raw.dates r = Some ds /\ Forall window_ok ds.

(** The fallback values of a normalized event. *)
Definition degrades_to_defaults (ev : Event) : Prop :=
  (Raw.salesContact (record ev) = None ->
   contactName ev = None /\ phone ev = None /\ email ev = None
   /\ website ev = None)
  /\ (Raw.venues (record ev) = Some [] -> address ev = lit " ,  ")
  /\ (Raw.pictures (record ev) = Some [] ->
      imageUrl ev = [] /\ absoluteImageUrl ev = [])
  /\ (Raw.title (record ev) = Some [] -> title ev = title_placeholder)
  /\ (Raw.description (record ev) = Some [] -> description ev = []).

(* ================================================================== *)
(** * Sample records *)
(* ================================================================== *)

(** Central European winter time. *)
Definition cet : Z := 3600000.

(** A local time of January 2025 in that zone. *)
Definition jan2025 (day hour minute : Z) : Z :=
  1735689600000 + (day - 1) * msPerDay + hour * msPerHour
    + minute * msPerMinute - cet.

Definition opens (day from : string) : jsstring * OpeningHour.entry :=
  (lit day, {| OpeningHour.from := Some (lit from) |}).

Definition window (from to : Z) (oh : option OpeningHours) : Raw.DateObject :=
  {| Raw.from := Some from; Raw.to := Some to; Raw.openingHours := oh |}.

Definition picture (u : string) : Raw.Picture :=
  {| Raw.previews :=
       Some {| Raw.media := Some {| Raw.url := Some (lit u) |} |} |}.

Definition venue_of (number street postcode town : string) : Raw.Venue :=
  {| Raw.location :=
       Some {| Raw.address :=
                 Some {| Raw.number := Some (lit number);
                         Raw.street := Some (lit street);
                         Raw.postcode := Some (lit postcode);
                         Raw.town := Some (lit town) |} |} |}.

Definition make_record (id : string) (ds : list Raw.DateObject)
  (ps : list Raw.Picture) (title description : JsObject jsstring)
  : Raw.RawRecord :=
  {| Raw.id := lit id;
     Raw.dates := Some ds;
     Raw.venues := Some [venue_of "1" "rue du Fort" "1234" "Luxembourg"];
     Raw.pictures := Some ps;
     Raw.title := Some title;
     Raw.description := Some description;
     Raw.salesContact := None |}.

(** A concert on 20 January, with a picture. *)
Definition concert : Raw.RawRecord :=
  make_record "concert"
    [window (jan2025 20 20 0) (jan2025 20 22 0) None]
    [picture "/media/concert.jpg"]
    [(lit "de", lit "Konzert"); (lit "en", lit "Concert")]
    [(lit "en", lit "<style>.a{}</style><p>Hello</p><p>World</p>")].

(** A market open on Mondays, 1 to 31 January, with a picture. *)
Definition market : Raw.RawRecord :=
  make_record "market"
    [window (jan2025 1 0 0) (jan2025 31 0 0) (Some [opens "monday" "10:00"])]
    [picture "https://cdn.echo.lu/market.jpg"]
    [(lit "fr", lit "March"); (lit "en", lit "Market")]
    [].

(** A talk on 10 January, without picture. *)
Definition talk : Raw.RawRecord :=
  make_record "talk"
    [window (jan2025 10 18 0) (jan2025 10 19 0) None]
    []
    []
    [].

(** Records that lack one of the containers. *)
Definition without_title : Raw.RawRecord :=
  {| Raw.id := Raw.id concert; Raw.dates := Raw.dates concert;
     Raw.venues := Raw.venues concert; Raw.pictures := Raw.pictures concert;
     Raw.title := None; Raw.description := Raw.description concert;
     Raw.salesContact := None |}.

Definition without_description : Raw.RawRecord :=
  {| Raw.id := Raw.id concert; Raw.dates := Raw.dates concert;
     Raw.venues := Raw.venues concert; Raw.pictures := Raw.pictures concert;
     Raw.title := Raw.title concert; Raw.description := None;
     Raw.salesContact := None |}.

Definition without_venues : Raw.RawRecord :=
  {| Raw.id := Raw.id concert; Raw.dates := Raw.dates concert;
     Raw.venues := None; Raw.pictures := Raw.pictures concert;
     Raw.title := Raw.title concert; Raw.description := Raw.description concert;
     Raw.salesContact := None |}.

Definition without_pictures : Raw.RawRecord :=
  {| Raw.id := Raw.id concert; Raw.dates := Raw.dates concert;
     Raw.venues := Raw.venues concert; Raw.pictures := None;
     Raw.title := Raw.title concert; Raw.description := Raw.description concert;
     Raw.salesContact := None |}.

(** Wednesday 8 January 2025, 09:00 and 10:30 local time. *)
Definition wednesday_0900 : Z := jan2025 8 9 0.
Definition wednesday_1030 : Z := jan2025 8 10 30.

(** A window open on Wednesdays at 10:00 during January. *)
Definition wednesdays_at_ten : Raw.DateObject :=
  window (jan2025 1 0 0) (jan2025 31 0 0) (Some [opens "wednesday" "10:00"]).

(** Two windows: January without opening hours, then February with
    Mondays at 10:00. *)
Definition january_then_mondays : list Raw.DateObject :=
  [window (jan2025 1 0 0) (jan2025 31 0 0) None;
   window (jan2025 32 0 0) (jan2025 59 0 0) (Some [opens "monday" "10:00"])].

(* ================================================================== *)
(** * Request parameters *)
(* ================================================================== *)

(** [Date.prototype.getFullYear], [getMonth] (from 0) and [getDate]. *)
Definition getFullYear (tz t : Z) : Z :=
  let '(y, _, _) := civil_from_days (local_day tz t) in y.

Definition getMonth (tz t : Z) : Z :=
  let '(_, m, _) := civil_from_days (local_day tz t) in m - 1.

Definition getDate (tz t : Z) : Z :=
  let '(_, _, d) := civil_from_days (local_day tz t) in d.

(** [Date.prototype.setDate]: the day of the month is replaced, and a
    value outside the month carries over into the neighbouring months;
    the time of day is kept. *)
Definition setDate (tz t date : Z) : Z := t + (date - getDate tz t) * msPerDay.

(** [Date.prototype.setHours(h, m, s, ms)]: the local day is kept. *)
Definition setHours (tz t h m s ms : Z) : Z :=
  local_day tz t * msPerDay + h * msPerHour + m * msPerMinute + s * 1000 + ms
    - tz.

(** Day number of a calendar date (month from 1), the inverse of
    [civil_from_days]. *)
Definition days_from_civil (y m d : Z) : Z :=
  let y' := if m <=? 2 then y - 1 else y in
  let era := y' / 400 in
  let yoe := y' - era * 400 in
  let doy := (153 * (if 2 <? m then m - 3 else m + 9) + 2) / 5 + d - 1 in
  let doe := yoe * 365 + yoe / 4 - yoe / 100 + doy in
  era * 146097 + doe - 719468.

(** [new Date(year, month, date, h, m, s, ms)] in local time: a month
    outside 0..11 carries into the year, a date outside the month into the
    neighbouring months; years 0 to 99 stand for 1900 to 1999. *)
Definition new_Date (tz year month date h m s ms : Z) : Z :=
  let year := if (0 <=? year) && (year <=? 99) then 1900 + year else year in
  let ym := year + month / 12 in
  let mn := month mod 12 in
  (days_from_civil ym (mn + 1) 1 + date - 1) * msPerDay
    + h * msPerHour + m * msPerMinute + s * 1000 + ms - tz.

(** [/[\[\]]/] *)
Definition m_bracket : matcher := fun s =>
  match s with
  | c :: _ => if ((c =? 91) || (c =? 93))%N then Some 1%nat else None
  | [] => None
  end.

(** The [switch] on [cleanTimeRange].  [now], [fromDate] and [toDate] are
    the three readings of the clock ([new Date()]) made before it; the
    result is the pair of dates after it. *)
Definition time_range (tz now fromDate toDate : Z) (timeRange : jsstring)
  : Z * Z :=
  let cleanTimeRange := replace_g m_bracket [] 0 timeRange in
  if str_eqb cleanTimeRange (lit "today") then
    (setHours tz fromDate 0 0 0 0, setHours tz toDate 23 59 59 999)
  else if str_eqb cleanTimeRange (lit "tomorrow") then
    let fromDate := setDate tz fromDate (getDate tz now + 1) in
    let fromDate := setHours tz fromDate 0 0 0 0 in
    let toDate := setDate tz toDate (getDate tz now + 1) in
    (fromDate, setHours tz toDate 23 59 59 999)
  else if str_eqb cleanTimeRange (lit "weekend") then
    let daysUntilWeekend := Z.rem (6 - getDay tz now + 7) 7 in
    let fromDate := setDate tz fromDate (getDate tz now + daysUntilWeekend) in
    let fromDate := setHours tz fromDate 0 0 0 0 in
    let toDate := fromDate in
    let toDate := setDate tz toDate (getDate tz fromDate + 1) in
    (fromDate, setHours tz toDate 23 59 59 999)
  else if str_eqb cleanTimeRange (lit "week") then
    let fromDate := setHours tz fromDate 0 0 0 0 in
    let toDate := setDate tz toDate (getDate tz now + 6) in
    (fromDate, setHours tz toDate 23 59 59 999)
  else if str_eqb cleanTimeRange (lit "next-week") then
    let fromDate := setDate tz fromDate (getDate tz now + 7) in
    let fromDate := setHours tz fromDate 0 0 0 0 in
    let toDate := setDate tz toDate (getDate tz fromDate + 6) in
    (fromDate, setHours tz toDate 23 59 59 999)
  else if str_eqb cleanTimeRange (lit "month") then
    (setHours tz fromDate 0 0 0 0,
     new_Date tz (getFullYear tz now) (getMonth tz now + 1) 0 23 59 59 999)
  else (fromDate, toDate).

(** [String.prototype.split] on a one-character separator. *)
Fixpoint split_on (sep : N) (s : jsstring) : list jsstring :=
  match s with
  | [] => [[]]
  | c :: r =>
      if N.eqb c sep then [] :: split_on sep r
      else match split_on sep r with
           | h :: t => (c :: h) :: t
           | [] => [[c]]
           end
  end.

(** [Date.prototype.toISOString]: the UTC fields; years outside 0..9999
    are written with a sign and six digits. *)
Definition toISOString (t : Z) : jsstring :=
  let '(y, m, d) := civil_from_days (t / msPerDay) in
  let ms := t mod msPerDay in
  let year :=
    if (0 <=? y) && (y <=? 9999) then addLeadingZeros y 4
    else (if y <? 0 then lit "-" else lit "+") ++ addLeadingZeros (Z.abs y) 6 in
  year ++ lit "-" ++ addLeadingZeros m 2 ++ lit "-" ++ addLeadingZeros d 2
    ++ lit "T" ++ addLeadingZeros (ms / msPerHour) 2
    ++ lit ":" ++ addLeadingZeros (ms mod msPerHour / msPerMinute) 2
    ++ lit ":" ++ addLeadingZeros (ms mod msPerMinute / 1000) 2
    ++ lit "." ++ addLeadingZeros (ms mod 1000) 3 ++ lit "Z".

(** [d.toISOString().split('.')[0] + 'Z'] *)
Definition iso_seconds (t : Z) : jsstring :=
  hd [] (split_on 46 (toISOString t)) ++ lit "Z".

(** A value of the route query: a string, [null], or an array of those. *)
Inductive QueryValue :=
| QString (s : jsstring)
| QNull
| QArray (vs : list (option jsstring)).

(** What [URLSearchParams.append] stores for a string or [null]. *)
Definition param_string (v : option jsstring) : jsstring :=
  match v with
  | Some s => s
  | None => lit "null"
  end.

(** [const toIgnore = [...]], and the three keys that [app.vue] tests. *)
Definition toIgnore : list jsstring :=
  [lit "api-key"; lit "timeRange"; lit "interval"; lit "currentIndex";
   lit "raw"; lit "lang"].

Definition toIgnore_app : list jsstring :=
  [lit "api-key"; lit "timeRange"; lit "interval"].

(** [Array.prototype.includes] *)
Definition includes (l : list jsstring) (k : jsstring) : bool :=
  existsb (str_eqb k) l.

(** [String.prototype.endsWith] *)
Definition endsWith (s p : jsstring) : bool := startsWith (rev s) (rev p).

(** The parameters appended for one entry of the query. *)
Definition append_entry (ignore : list jsstring) (kv : jsstring * QueryValue)
  : list (jsstring * jsstring) :=
  let '(key, value) := kv in
  if includes ignore key then []
  else match value with
       | QArray vs => map (fun v => (key, param_string v)) vs
       | QString s =>
           if startsWith s (lit "[") && endsWith s (lit "]") then
             let values := split_on 44 (removelast (tl s)) in
             map (fun v => (key, trim v)) values
           else [(key, s)]
       | QNull => [(key, param_string None)]
       end.

(** The [Object.entries(query).forEach] loop. *)
Definition passthrough (ignore : list jsstring) (query : JsObject QueryValue)
  : list (jsstring * jsstring) :=
  flat_map (append_entry ignore) query.

(** The entries of [params] when the request is sent.  A [timeRange]
    that is an array is truthy and has no [replace] method. *)
Definition request_params (tz now fromDate toDate : Z) (ignore : list jsstring)
  (query : JsObject QueryValue) : Result (list (jsstring * jsstring)) :=
  match get query (lit "timeRange") with
  | Some (QString (c :: r)) =>
      let '(f, t) := time_range tz now fromDate toDate (c :: r) in
      Ok ([(lit "date[from]", iso_seconds f); (lit "date[to]", iso_seconds t)]
            ++ passthrough ignore query)
  | Some (QArray _) => Throw TypeError
  | _ => Ok (passthrough ignore query)
  end.

(* ================================================================== *)
(** * Carousel *)
(* ================================================================== *)

(** An integer-valued number, or NaN ([None]). *)
Definition JsNumber := option Z.

(** [a % n] for an array length [n]: NaN when [n] is 0, else the
    remainder with the sign of [a]. *)
Definition js_rem (a : JsNumber) (n : nat) : JsNumber :=
  match a, n with
  | Some x, S _ => Some (Z.rem x (Z.of_nat n))
  | _, _ => None
  end.

Definition js_add (a : JsNumber) (k : Z) : JsNumber :=
  option_map (fun x => x + k) a.

(** [events[i] ?? null]: only an index from 0 to length - 1 finds an
    element. *)
Definition at_index {A} (l : list A) (i : JsNumber) : option A :=
  match i with
  | Some x => if x <? 0 then None else nth_error l (Z.to_nat x)
  | None => None
  end.

(** [ref(query.currentIndex ? parseInt(query.currentIndex) : 0)] *)
Definition initial_index (q : option jsstring) : JsNumber :=
  match q with
  | Some (c :: r) => parseInt (c :: r)
  | _ => Some 0
  end.

Definition currentEvent {A} (events : list A) (currentIndex : JsNumber)
  : option A :=
  at_index events (js_rem currentIndex (List.length events)).

Definition afterCurrentEvent {A} (events : list A) (currentIndex : JsNumber)
  : option A :=
  at_index events (js_rem (js_add currentIndex 1) (List.length events)).

Definition beforeCurrentEvent {A} (events : list A) (currentIndex : JsNumber)
  : option A :=
  at_index events
    (js_rem (js_add (js_add currentIndex (-1)) (Z.of_nat (List.length events)))
       (List.length events)).

(** The new [currentIndex] after [nextEvent] and [previousEvent]. *)
Definition nextEvent {A} (events : list A) (currentIndex : JsNumber)
  : JsNumber :=
  js_rem (js_add currentIndex 1) (List.length events).

Definition previousEvent {A} (events : list A) (currentIndex : JsNumber)
  : JsNumber :=
  js_rem (js_add (js_add currentIndex (-1)) (Z.of_nat (List.length events)))
    (List.length events).

Inductive Key := ArrowRight | ArrowLeft | OtherKey.

(** [onKeyDown] *)
Definition onKeyDown {A} (events : list A) (k : Key) (currentIndex : JsNumber)
  : JsNumber :=
  match k with
  | ArrowRight => nextEvent events currentIndex
  | ArrowLeft => previousEvent events currentIndex
  | OtherKey => currentIndex
  end.

(* ================================================================== *)
(** * Vocabulary of the further statements *)
(* ================================================================== *)

(** No [<] of the text is followed, anywhere later, by a [>]. *)
Fixpoint no_tag (s : jsstring) : bool :=
  match s with
  | [] => true
  | c :: r =>
      if N.eqb c 60 then negb (existsb (N.eqb 62) r) else no_tag r
  end.

Definition is_angle (c : N) : bool := N.eqb c 60 || N.eqb c 62.

Definition not_angle (c : N) : Prop := is_angle c = false.

(** Local midnight and the last millisecond of the local day number [n]. *)
Definition day_start (tz n : Z) : Z := n * msPerDay - tz.
Definition day_end (tz n : Z) : Z := n * msPerDay + 86399999 - tz.

(** [civil_from_days] from the 400-year era and the day within it. *)
Definition civil_of (era doe : Z) : Z * Z * Z :=
  let yoe := (doe - doe / 1460 + doe / 36524 - doe / 146096) / 365 in
  let doy := doe - (365 * yoe + yoe / 4 - yoe / 100) in
  let mp := (5 * doy + 2) / 153 in
  let d := doy - (153 * mp + 2) / 5 + 1 in
  let m := if mp <? 10 then mp + 3 else mp - 9 in
  let y := yoe + era * 400 + (if m <=? 2 then 1 else 0) in
  (y, m, d).

(** The day before the first day of the month that follows the month of
    day [z]: the day number that [new Date(year, month + 1, 0)] denotes. *)
Definition month_end_day (z : Z) : Z :=
  let '(y, m, _) := civil_from_days z in
  days_from_civil (y + m / 12) (m mod 12 + 1) 1 - 1.

(** First day of year [yoe] of a 400-year era, counted from the era's
    1 March of year 0. *)
Definition start_of_year (yoe : Z) : Z := 365 * yoe + yoe / 4 - yoe / 100.

(** Month number of the month [mp] of a year that starts in March. *)
Definition month_of (mp : Z) : Z := if mp <? 10 then mp + 3 else mp - 9.

Ltac euclid := Z.to_euclidean_division_equations; lia.

(** The UTC date and time of day of the second [secs] since the epoch, as
    [toISOString] writes them before the fraction. *)
Definition iso_date_time (secs : Z) : jsstring :=
  let '(y, m, d) := civil_from_days (secs / 86400) in
  let s := secs mod 86400 in
  let year :=
    if (0 <=? y) && (y <=? 9999) then addLeadingZeros y 4
    else (if y <? 0 then lit "-" else lit "+") ++ addLeadingZeros (Z.abs y) 6 in
  year ++ lit "-" ++ addLeadingZeros m 2 ++ lit "-" ++ addLeadingZeros d 2
    ++ lit "T" ++ addLeadingZeros (s / 3600) 2
    ++ lit ":" ++ addLeadingZeros (s mod 3600 / 60) 2
    ++ lit ":" ++ addLeadingZeros (s mod 60) 2.

(** No full stop among the code units. *)
Definition no_dot (s : jsstring) : Prop := Forall (fun c => c <> 46%N) s.

(** A run of key presses and timer ticks, each one seeing the list of
    events of its moment. *)
Fixpoint run_keys {A} (steps : list (list A * Key)) (i : JsNumber) : JsNumber :=
  match steps with
  | [] => i
  | (events, k) :: rest => run_keys rest (onKeyDown events k i)
  end.

(** A string with no white space at either end. *)
Definition trimmed (w : jsstring) : Prop :=
  w = [] \/ (is_space (hd 0%N w) = false /\ is_space (last w 0%N) = false).

(** [nextEvent], [n] times. *)
Fixpoint press_next {A} (n : nat) (events : list A) (i : JsNumber) : JsNumber :=
  match n with
  | O => i
  | S k => press_next k events (nextEvent events i)
  end.

(* ================================================================== *)
(** * Properties of the description sanitizer *)
(* ================================================================== *)

Lemma replace_g_Forall (P : N -> Prop) (m : matcher) (rep : jsstring) :
  Forall P rep ->
  forall s skip, Forall P s -> Forall P (replace_g m rep skip s).
Proof.
  intros Hrep s.
  induction s as [|c s IH]; intros skip Hs.
  - destruct skip; simpl.
    + destruct (m []) as [[|k]|]; rewrite ?app_nil_r; auto.
    + constructor.
  - inversion Hs as [|? ? Hc Hs']; subst.
    destruct skip; simpl.
    + destruct (m (c :: s)) as [[|k]|].
      * apply Forall_app; split; auto.
      * apply Forall_app; split; auto.
      * constructor; auto.
    + auto.
Qed.

Lemma collapse_plain (s : jsstring) (skip : nat) :
  Forall plain (replace_g m_ws (lit " ") skip s).
Proof.
  revert skip.
  induction s as [|c s IH]; intros skip.
  - destruct skip; simpl; constructor.
  - destruct skip; simpl; [|apply IH].
    unfold m_ws; simpl.
    destruct (is_space c) eqn:Hc.
    + constructor; [intros _; reflexivity | apply IH].
    + constructor; [intros H; congruence | apply IH].
Qed.

(** Whatever the description, the sanitized text has no white space but
    plain spaces: the ['\n\n'] put between paragraphs never survives the
    [/\s+/g] replacement that follows. *)
Lemma sanitize_plain (s : jsstring) : Forall plain (sanitize s).
Proof.
  unfold sanitize.
  apply replace_g_Forall; [repeat constructor; intros _; reflexivity|].
  apply replace_g_Forall.
  - repeat constructor; intros H; vm_compute in H; discriminate.
  - apply collapse_plain.
Qed.

Lemma sanitize_no_line_feed (s : jsstring) : ~ In 10%N (sanitize s).
Proof.
  intros Hin.
  pose proof (sanitize_plain s) as H.
  rewrite Forall_forall in H.
  specialize (H _ Hin eq_refl). discriminate.
Qed.

(** The zero-width no-break space belongs to [\s]: it is already a plain
    space when the [/\u{FEFF}/gu] replacement runs. *)
Lemma replace_g_no_match (p rep s : jsstring) (c : N) :
  hd_error p = Some c -> ~ In c s ->
  replace_g (m_lit p) rep 0 s = s.
Proof.
  intros Hp.
  induction s as [|x s IH]; intros Hs.
  - simpl. unfold m_lit. destruct p; [discriminate|reflexivity].
  - simpl. unfold m_lit.
    destruct p as [|y p]; [discriminate|].
    simpl in Hp. injection Hp as ->.
    simpl. destruct (N.eqb_spec c x) as [->|Hne].
    + exfalso. apply Hs. left. reflexivity.
    + simpl. f_equal. apply IH. intros Hin. apply Hs. right. exact Hin.
Qed.

(** C1: on ["<style>.a{}</style><p>Hello</p><p>World</p>"] the paragraphs are
    extracted and joined as ["Hello\n\nWorld"], but the white-space collapse
    that follows turns the two line feeds into one space: the description
    is ["Hello World"], not ["Hello\n\nWorld"]. *)
Theorem C1_sanitize_collapses_paragraph_break :
  let input := lit "<style>.a{}</style><p>Hello</p><p>World</p>" in
  extract_paragraphs (replace_g m_style [] 0 input)
    = lit "Hello" ++ [10%N; 10%N] ++ lit "World"
  /\ sanitize input = lit "Hello World"
  /\ sanitize input <> lit "Hello" ++ [10%N; 10%N] ++ lit "World".
Proof.
  cbv zeta. split; [vm_compute; reflexivity|].
  split; [vm_compute; reflexivity|].
  vm_compute. discriminate.
Qed.

(* ================================================================== *)
(** * Properties of the date-window selector *)
(* ================================================================== *)




(* ================================================================== *)
(** * Properties of the callback *)
(* ================================================================== *)

Lemma str_eqb_eq (a b : jsstring) : str_eqb a b = true <-> a = b.
Proof.
  revert b. induction a as [|x a IH]; intros [|y b]; simpl;
    try (split; [discriminate|discriminate]); [tauto|].
  rewrite andb_true_iff, N.eqb_eq, IH.
  split; [intros [-> ->]; reflexivity|intros H; injection H; auto].
Qed.

Lemma bind_Ok {A B} (r : Result A) (k : A -> Result B) (b : B) :
  bind r k = Ok b -> exists a, r = Ok a /\ k a = Ok b.
Proof. destruct r; simpl; [eauto|discriminate]. Qed.

Lemma deref_Ok {A} (o : option A) (a : A) : deref o = Ok a -> o = Some a.
Proof. destruct o; simpl; congruence. Qed.

(** What a successful call of the callback has read and computed. *)
Lemma normalize_Ok (tz : Z) (lang : jsstring) (now : Z) (r : Raw.RawRecord)
  (ev : Event) :
  normalize tz lang now r = Ok ev ->
  exists ds vs ps titles descriptions,
    Raw.dates r = Some ds /\ Raw.venues r = Some vs
    /\ Raw.pictures r = Some ps /\ Raw.title r = Some titles
    /\ Raw.description r = Some descriptions
    /\ schedule tz lang now ds = Ok (dateString ev, date ev)
    /\ id ev = Raw.id r
    /\ url ev = experience_url (Raw.id r)
    /\ title ev = resolve_title titles lang
    /\ initialDescription ev = resolve_description descriptions lang
    /\ description ev = sanitize (resolve_description descriptions lang)
    /\ address ev = compose_address vs
    /\ imageUrl ev = first_preview_url ps
    /\ absoluteImageUrl ev = absolute_url (first_preview_url ps)
    /\ contactName ev = chain (Raw.salesContact r) Raw.name
    /\ record ev = r.
Proof.
  unfold normalize. intros H.
  apply bind_Ok in H as (ds & Hds & H). apply deref_Ok in Hds.
  apply bind_Ok in H as ([s d] & Hs & H).
  apply bind_Ok in H as (vs & Hvs & H). apply deref_Ok in Hvs.
  apply bind_Ok in H as (ps & Hps & H). apply deref_Ok in Hps.
  apply bind_Ok in H as (ts & Hts & H). apply deref_Ok in Hts.
  apply bind_Ok in H as (dd & Hdd & H). apply deref_Ok in Hdd.
  injection H as <-. simpl.
  exists ds, vs, ps, ts, dd. repeat split; assumption.
Qed.

Lemma normalize_Ok_contact (tz : Z) (lang : jsstring) (now : Z)
  (r : Raw.RawRecord) (ev : Event) :
  normalize tz lang now r = Ok ev ->
  phone ev = chain (Raw.salesContact r) Raw.phone
  /\ email ev = chain (Raw.salesContact r) Raw.email
  /\ website ev = chain (Raw.salesContact r) Raw.website.
Proof.
  unfold normalize. intros H.
  apply bind_Ok in H as (ds & _ & H).
  apply bind_Ok in H as ([s d] & _ & H).
  apply bind_Ok in H as (vs & _ & H).
  apply bind_Ok in H as (ps & _ & H).
  apply bind_Ok in H as (ts & _ & H).
  apply bind_Ok in H as (dd & _ & H).
  injection H as <-. simpl. auto.
Qed.

(** C10: the [url] of a normalized event is
    ["https://www.echo.lu/en/experiences/"] followed by the record's [id],
    whatever the requested locale. *)
Theorem C10_url_is_english_page (tz : Z) (lang : jsstring) (now : Z)
  (r : Raw.RawRecord) (ev : Event) :
  normalize tz lang now r = Ok ev ->
  url ev = lit "https://www.echo.lu/en/experiences/" ++ Raw.id r.
Proof.
  intros H.
  apply normalize_Ok in H
    as (ds & vs & ps & ts & dd & _ & _ & _ & _ & _ & _ & _ & Hurl & _).
  exact Hurl.
Qed.

(** ** Locale fallback chain *)

Lemma chain_of_four (a b c d : option jsstring) (fallback : jsstring) :
  let result := or_lit (or_else (or_else (or_else a b) c) d) fallback in
  (truthy a = true -> a = Some result)
  /\ (truthy a = false -> truthy b = true -> b = Some result)
  /\ (truthy a = false -> truthy b = false -> truthy c = true ->
      c = Some result)
  /\ (truthy a = false -> truthy b = false -> truthy c = false ->
      truthy d = true -> d = Some result)
  /\ (truthy a = false -> truthy b = false -> truthy c = false ->
      truthy d = false -> result = fallback)
  /\ (truthy a = true \/ truthy b = true \/ truthy c = true
      \/ truthy d = true ->
      result <> []
      /\ (a = Some result \/ b = Some result \/ c = Some result
          \/ d = Some result)).
Proof.
  destruct a as [[|? ?]|], b as [[|? ?]|], c as [[|? ?]|], d as [[|? ?]|];
    cbv zeta; simpl;
    repeat split; intros; try discriminate; try reflexivity; auto;
    intuition discriminate.
Qed.

Lemma locale_chain_follows (obj : JsObject jsstring) (lang fallback : jsstring) :
  lang = lit "fr" \/ lang = lit "de" \/ lang = lit "en" ->
  follows_chain obj lang fallback (or_lit (locale_chain obj lang) fallback).
Proof.
  intros Hlang. unfold follows_chain, locale_chain. cbv zeta.
  pose proof (chain_of_four (get obj lang) (get obj (lit "fr"))
                (get obj (lit "de")) (get obj (lit "en")) fallback) as H.
  cbv zeta in H.
  destruct H as (H1 & H2 & H3 & H4 & H5 & H6).
  repeat (split; [assumption|]).
  split.
  - intros Hf Hd He. apply H5; try assumption.
    destruct Hlang as [->| [->| ->]]; assumption.
  - intros Hset.
    destruct H6 as [Hne Hin]; [tauto|].
    split; [assumption|].
    destruct Hin as [Hin|Hin]; [|assumption].
    destruct Hlang as [->| [->| ->]]; auto.
Qed.

(** C7: for a requested locale among fr, de and en, the title is the value
    of the requested locale, else the French, else the German, else the
    English one, else ['Événement']; the description that enters the
    sanitizer ([initialDescription]) follows the same chain with the empty
    string at the end; the end of the chain is reached only when the three
    locale values are all absent or empty. *)
Theorem C7_locale_fallback_chain (tz : Z) (lang : jsstring) (now : Z)
  (r : Raw.RawRecord) (ev : Event) :
  normalize tz lang now r = Ok ev ->
  lang = lit "fr" \/ lang = lit "de" \/ lang = lit "en" ->
  exists titles descriptions,
    Raw.title r = Some titles /\ Raw.description r = Some descriptions
    /\ follows_chain titles lang ([201%N] ++ lit "v" ++ [233%N] ++ lit "nement")
         (title ev)
    /\ follows_chain descriptions lang [] (initialDescription ev)
    /\ description ev = sanitize (initialDescription ev).
Proof.
  intros H Hlang.
  apply normalize_Ok in H
    as (ds & vs & ps & ts & dd & _ & _ & _ & Ht & Hd & _ & _ & _ & Htitle
        & Hinit & Hdesc & _).
  exists ts, dd. split; [assumption|]. split; [assumption|].
  rewrite Htitle, Hinit, Hdesc.
  split; [|split; [|reflexivity]].
  - apply (locale_chain_follows ts lang title_placeholder Hlang).
  - apply (locale_chain_follows dd lang [] Hlang).
Qed.

(* ================================================================== *)
(** * Properties of the list assembly *)
(* ================================================================== *)

Lemma insert_by_date_In (e x : Event) (l : list Event) :
  In x (insert_by_date e l) <-> x = e \/ In x l.
Proof.
  induction l as [|a l IH]; simpl.
  - intuition.
  - destruct (date e <=? date a); simpl; [intuition|].
    rewrite IH. intuition.
Qed.

Lemma insert_by_date_sorted (e : Event) (l : list Event) :
  StronglySorted by_date l -> StronglySorted by_date (insert_by_date e l).
Proof.
  induction l as [|a l IH]; intros Hs; simpl.
  - constructor; constructor.
  - inversion Hs as [|? ? Hl Ha]; subst.
    destruct (Z.leb_spec (date e) (date a)) as [Hle|Hgt].
    + constructor; [assumption|].
      constructor; [exact Hle|].
      rewrite Forall_forall in Ha |- *.
      intros x Hx. specialize (Ha x Hx). unfold by_date in *. lia.
    + constructor; [apply IH; assumption|].
      rewrite Forall_forall in Ha |- *.
      intros x Hx. apply insert_by_date_In in Hx as [->|Hx].
      * unfold by_date. lia.
      * apply Ha, Hx.
Qed.

Lemma sort_by_date_sorted (l : list Event) :
  StronglySorted by_date (sort_by_date l).
Proof.
  induction l as [|e l IH]; simpl.
  - constructor.
  - apply insert_by_date_sorted, IH.
Qed.

Lemma sort_by_date_In (x : Event) (l : list Event) :
  In x (sort_by_date l) <-> In x l.
Proof.
  induction l as [|e l IH]; simpl; [tauto|].
  rewrite insert_by_date_In, IH. intuition.
Qed.

Lemma filter_StronglySorted {A} (R : A -> A -> Prop) (f : A -> bool)
  (l : list A) :
  StronglySorted R l -> StronglySorted R (filter f l).
Proof.
  induction 1 as [|a l Hl IH Ha]; simpl; [constructor|].
  destruct (f a); [|assumption].
  constructor; [assumption|].
  rewrite Forall_forall in Ha |- *.
  intros x Hx. apply filter_In in Hx as [Hx _]. apply Ha, Hx.
Qed.

Lemma map_throwing_In {A B} (f : nat -> A -> Result B) (l : list A) :
  forall i bs, map_throwing f i l = Ok bs ->
  forall b, In b bs -> exists k a, In a l /\ f k a = Ok b.
Proof.
  induction l as [|a l IH]; intros i bs H b Hb; simpl in H.
  - injection H as <-. destruct Hb.
  - apply bind_Ok in H as (b0 & Hb0 & H).
    apply bind_Ok in H as (bs0 & Hbs0 & H).
    injection H as <-.
    destruct Hb as [<-|Hb].
    + exists i, a. split; [left; reflexivity|assumption].
    + destruct (IH _ _ Hbs0 b Hb) as (k & a' & Ha' & Hk).
      exists k, a'. split; [right; assumption|assumption].
Qed.


Lemma absolute_url_empty (u : jsstring) : absolute_url u = [] -> u = [].
Proof.
  destruct u as [|c u]; [reflexivity|].
  unfold absolute_url.
  destruct (startsWith (c :: u) (lit "http")); discriminate.
Qed.

Lemma has_image_true (e : Event) :
  has_image e = true <-> absoluteImageUrl e <> [].
Proof.
  unfold has_image. rewrite negb_true_iff.
  destruct (str_eqb (absoluteImageUrl e) []) eqn:H.
  - apply str_eqb_eq in H. split; [discriminate|congruence].
  - split; [|reflexivity]. intros _ Habs.
    apply str_eqb_eq in Habs. congruence.
Qed.

(** C6: in the list returned for a batch, [date] never decreases from one
    element to the next, every element has a non-empty [absoluteImageUrl],
    and every element comes from a record of the batch whose first picture
    has a preview URL; hence no element comes from a record without one. *)
Theorem C6_output_sorted_and_pictured (tz : Z) (lang : jsstring)
  (clock : nat -> Z) (records : list Raw.RawRecord) (evs : list Event) :
  events_of_records tz lang clock records = Ok evs ->
  StronglySorted (fun a b => date a <= date b) evs
  /\ Forall (fun e => absoluteImageUrl e <> []) evs
  /\ Forall (fun e =>
               In (record e) records
               /\ exists ps, Raw.pictures (record e) = Some ps
                             /\ first_preview_url ps <> []) evs
  /\ (forall r ps, Raw.pictures r = Some ps -> first_preview_url ps = [] ->
      forall e, In e evs -> record e <> r).
Proof.
  intros H. unfold events_of_records in H.
  apply bind_Ok in H as (mapped & Hmap & H). injection H as <-.
  assert (Hpic : Forall (fun e =>
               In (record e) records
               /\ exists ps, Raw.pictures (record e) = Some ps
                             /\ first_preview_url ps <> [])
            (filter has_image (sort_by_date mapped))).
  { rewrite Forall_forall. intros e He.
    apply filter_In in He as [He Himg].
    rewrite sort_by_date_In in He.
    destruct (map_throwing_In _ _ _ _ Hmap e He) as (k & r & Hr & Hk).
    apply normalize_Ok in Hk
      as (ds & vs & ps & ts & dd & _ & _ & Hps & _ & _ & _ & _ & _ & _ & _
          & _ & _ & _ & Habs & _ & Hrec).
    rewrite Hrec. split; [assumption|].
    exists ps. split; [assumption|].
    intros Hempty. apply has_image_true in Himg.
    apply Himg. rewrite Habs, Hempty. reflexivity. }
  split; [|split; [|split]].
  - apply (filter_StronglySorted by_date), sort_by_date_sorted.
  - rewrite Forall_forall. intros e He.
    apply filter_In in He as [_ Himg]. apply has_image_true, Himg.
  - exact Hpic.
  - intros r ps Hps Hempty e He Hrec.
    rewrite Forall_forall in Hpic.
    destruct (Hpic e He) as (_ & ps' & Hps' & Hne).
    rewrite Hrec, Hps in Hps'. injection Hps' as <-. contradiction.
Qed.


(* ================================================================== *)
(** * Properties of the schedule string *)
(* ================================================================== *)

(** C5: without opening hours, a window of more than 24 hours (strictly)
    is rendered ["From dd/MM/yyyy to dd/MM/yyyy"]; a window of at most 24
    hours is rendered ["<Weekday>, dd/MM/yyyy, HH:mm"] when both ends print
    the same date and ["<Weekday>, dd/MM/yyyy, HH:mm-HH:mm"] when they do
    not; the event's [date] is the start of the window. *)
Theorem C5_non_recurring_format (tz : Z) (lang : jsstring) (now : Z)
  (ds : list Raw.DateObject) (f t : Z) :
  openingHours (select_window now ds) = None ->
  dateFrom (select_window now ds) = Some f ->
  dateTo (select_window now ds) = Some t ->
  exists s,
    schedule tz lang now ds = Ok (s, f)
    /\ (86400000 < t - f ->
        s = lit "From " ++ ddMMyyyy tz f ++ lit " to " ++ ddMMyyyy tz t)
    /\ (t - f <= 86400000 -> ddMMyyyy tz f = ddMMyyyy tz t ->
        s = EEEE tz lang f ++ lit ", " ++ ddMMyyyy tz f ++ lit ", "
              ++ HHmm tz f)
    /\ (t - f <= 86400000 -> ddMMyyyy tz f <> ddMMyyyy tz t ->
        s = EEEE tz lang f ++ lit ", " ++ ddMMyyyy tz f ++ lit ", "
              ++ HHmm tz f ++ lit "-" ++ HHmm tz t).
Proof.
  intros Hoh Hf Ht.
  unfold schedule, non_recurring. rewrite Hoh, Hf, Ht.
  change (24 * 60 * 60 * 1000) with 86400000.
  eexists. split; [reflexivity|].
  destruct (Z.ltb_spec 86400000 (t - f)) as [Hlong|Hshort].
  - repeat split; intros; try lia; reflexivity.
  - destruct (str_eqb (ddMMyyyy tz f) (ddMMyyyy tz t)) eqn:Heq.
    + apply str_eqb_eq in Heq.
      repeat split; intros; try lia; try reflexivity; contradiction.
    + assert (ddMMyyyy tz f <> ddMMyyyy tz t) as Hne
        by (intros Habs; apply str_eqb_eq in Habs; congruence).
      repeat split; intros; try lia; try reflexivity; contradiction.
Qed.

(** ** The weekly resolver *)

Lemma try_day_pick (tz now : Z) (oh : OpeningHours) (ds : list Raw.DateObject)
  (index : Z) (day : jsstring) (st : NextOccurrence) :
  try_day tz now oh ds index day st =
  let* l := day_offer tz now oh ds index day in Ok (fold_left pick l st).
Proof.
  unfold try_day, day_offer.
  destruct (get oh day) as [e|]; [|reflexivity].
  destruct (past_todays_opening tz now index e) as [past|err]; [|reflexivity].
  destruct (hd_error ds) as [first|]; [|reflexivity].
  simpl.
  destruct (in_range first (candidate tz now index past)); simpl;
    [|reflexivity].
  unfold pick. simpl.
  destruct (improves (candidate tz now index past) st); reflexivity.
Qed.

Lemma try_days_pick (tz now : Z) (oh : OpeningHours) (ds : list Raw.DateObject)
  (days : list jsstring) :
  forall index st,
  try_days tz now oh ds index days st =
  let* l := offers tz now oh ds index days in Ok (fold_left pick l st).
Proof.
  induction days as [|day rest IH]; intros index st; simpl; [reflexivity|].
  rewrite try_day_pick.
  destruct (day_offer tz now oh ds index day) as [a|err]; simpl;
    [|reflexivity].
  rewrite IH.
  destruct (offers tz now oh ds (index + 1) rest) as [b|err]; simpl;
    [|reflexivity].
  rewrite fold_left_app. reflexivity.
Qed.

Lemma pick_at_most (st : NextOccurrence) (x : Z * option jsstring) (c : Z) :
  at_most st c -> at_most (pick st x) c.
Proof.
  intros (c' & nt & -> & Hle). unfold pick. simpl.
  destruct (Z.ltb_spec (fst x) c') as [Hlt|Hge].
  - exists (fst x), (snd x). split; [destruct x; reflexivity|lia].
  - exists c', nt. split; [reflexivity|assumption].
Qed.

Lemma fold_pick_at_most (l : list (Z * option jsstring)) :
  forall st c, at_most st c -> at_most (fold_left pick l st) c.
Proof.
  induction l as [|x l IH]; intros st c H; simpl; [assumption|].
  apply IH, pick_at_most, H.
Qed.

Lemma pick_covers (st : NextOccurrence) (x : Z * option jsstring) :
  at_most (pick st x) (fst x).
Proof.
  unfold pick. destruct st as [[c' nt]|]; simpl.
  - destruct (Z.ltb_spec (fst x) c') as [Hlt|Hge].
    + exists (fst x), (snd x). split; [destruct x; reflexivity|lia].
    + exists c', nt. split; [reflexivity|assumption].
  - exists (fst x), (snd x). split; [destruct x; reflexivity|lia].
Qed.

Lemma fold_pick_covers (l : list (Z * option jsstring)) :
  forall st x, In x l -> at_most (fold_left pick l st) (fst x).
Proof.
  induction l as [|y l IH]; intros st x Hx; simpl; [destruct Hx|].
  destruct Hx as [->|Hx].
  - apply fold_pick_at_most, pick_covers.
  - apply IH, Hx.
Qed.

Lemma fold_pick_settled (l : list (Z * option jsstring)) (st : NextOccurrence) :
  (forall x, In x l -> at_most st (fst x)) -> fold_left pick l st = st.
Proof.
  induction l as [|y l IH]; intros H; simpl; [reflexivity|].
  assert (pick st y = st) as ->.
  { destruct (H y (or_introl eq_refl)) as (c' & nt & -> & Hle).
    unfold pick. simpl.
    destruct (Z.ltb_spec (fst y) c'); [lia|reflexivity]. }
  apply IH. intros x Hx. apply H. right. exact Hx.
Qed.

(** A second pass over the same candidates changes nothing. *)
Lemma fold_pick_twice (l : list (Z * option jsstring)) (st : NextOccurrence) :
  fold_left pick l (fold_left pick l st) = fold_left pick l st.
Proof.
  apply fold_pick_settled. intros x Hx. apply fold_pick_covers, Hx.
Qed.

(** The seven passes of the outer loop amount to one. *)
Lemma passes_pick (tz now : Z) (oh : OpeningHours) (ds : list Raw.DateObject)
  (n : nat) :
  forall st,
  passes tz (S n) now oh ds st =
  let* l := accepted_candidates tz now oh ds in Ok (fold_left pick l st).
Proof.
  unfold accepted_candidates.
  induction n as [|n IH]; intros st.
  - change (passes tz 1 now oh ds st)
      with (let* st' := try_days tz now oh ds 0 daysOfWeek st in Ok st').
    rewrite try_days_pick.
    destruct (offers tz now oh ds 0 daysOfWeek); reflexivity.
  - change (passes tz (S (S n)) now oh ds st)
      with (let* st' := try_days tz now oh ds 0 daysOfWeek st in
            passes tz (S n) now oh ds st').
    rewrite try_days_pick.
    destruct (offers tz now oh ds 0 daysOfWeek) as [l|err] eqn:Hl;
      [|reflexivity].
    unfold bind in IH |- *.
    rewrite IH, fold_pick_twice. reflexivity.
Qed.

(** Folding [pick] from [null] selects the earliest candidate, and among
    equally early ones the first of the list. *)
Lemma fold_pick_first_min (l : list (Z * option jsstring)) :
  match fold_left pick l None with
  | None => l = []
  | Some x =>
      exists l1 l2, l = l1 ++ x :: l2
                    /\ Forall (fun y => fst x < fst y) l1
                    /\ Forall (fun y => fst x <= fst y) l2
  end.
Proof.
  induction l as [|x l IH] using rev_ind; [reflexivity|].
  rewrite fold_left_app. simpl.
  destruct (fold_left pick l None) as [y|].
  - destruct IH as (l1 & l2 & -> & H1 & H2).
    unfold pick. simpl. destruct y as [cy nty]. simpl in *.
    destruct (Z.ltb_spec (fst x) cy) as [Hlt|Hge].
    + exists (l1 ++ (cy, nty) :: l2), []. split; [reflexivity|].
      split; [|constructor].
      apply Forall_app. split.
      * eapply Forall_impl; [|exact H1]. simpl. intros; lia.
      * constructor; [simpl; lia|].
        eapply Forall_impl; [|exact H2]. simpl. intros; lia.
    + exists l1, (l2 ++ [x]). split; [rewrite <- app_assoc; reflexivity|].
      split; [assumption|].
      apply Forall_app. split; [assumption|]. constructor; [assumption|constructor].
  - subst l. unfold pick. simpl.
    exists [], []. repeat split; constructor.
Qed.

Lemma in_range_closed (first : Raw.DateObject) (f0 t0 c : Z) :
  Raw.from first = Some f0 -> Raw.to first = Some t0 ->
  in_range first c = true <-> f0 <= c <= t0.
Proof.
  intros Hf Ht. unfold in_range, isBefore. rewrite Hf, Ht.
  rewrite andb_true_iff, !negb_true_iff, !Z.ltb_ge. tauto.
Qed.

Lemma offers_in_range (tz now : Z) (oh : OpeningHours) (ds : list Raw.DateObject)
  (first : Raw.DateObject) (days : list jsstring) :
  hd_error ds = Some first ->
  forall index l, offers tz now oh ds index days = Ok l ->
  Forall (fun x => in_range first (fst x) = true) l.
Proof.
  intros Hhd.
  induction days as [|day rest IH]; intros index l H; simpl in H.
  - injection H as <-. constructor.
  - apply bind_Ok in H as (a & Ha & H).
    apply bind_Ok in H as (b & Hb & H). injection H as <-.
    apply Forall_app. split; [|eapply IH; eassumption].
    unfold day_offer in Ha.
    destruct (get oh day) as [e|]; [|injection Ha as <-; constructor].
    apply bind_Ok in Ha as (past & _ & Ha).
    rewrite Hhd in Ha. simpl in Ha. injection Ha as <-.
    destruct (in_range first (candidate tz now index past)) eqn:Hr;
      repeat constructor; assumption.
Qed.

(** C4: a candidate is accepted exactly when it lies in the closed
    interval from [dates[0].from] to [dates[0].to] (the first window of
    the record, whichever window the selector chose); the occurrence kept
    after the seven passes is the earliest accepted candidate, and among
    equally early ones the one met first in Sunday-first order; with a
    non-empty opening time it gives ["<Weekday>, dd/MM/yyyy, <time>"] and
    becomes the event's [date]; when no candidate is accepted the string is
    ["From <start> to <end>"] of the selected window and the [date] is that
    window's [dateFrom]. *)
Theorem C4_recurring_choice (tz : Z) (lang : jsstring) (now : Z)
  (ds : list Raw.DateObject) (oh : OpeningHours) (first : Raw.DateObject)
  (f0 t0 : Z) (l : list (Z * option jsstring)) :
  openingHours (select_window now ds) = Some oh ->
  hd_error ds = Some first ->
  Raw.from first = Some f0 -> Raw.to first = Some t0 ->
  accepted_candidates tz now oh ds = Ok l ->
  (forall c, in_range first c = true <-> f0 <= c <= t0)
  /\ Forall (fun x => f0 <= fst x <= t0) l
  /\ exists next,
       passes tz 7 now oh ds None = Ok next
       /\ match next with
          | Some (c, nt) =>
              (exists l1 l2,
                  l = l1 ++ (c, nt) :: l2
                  /\ Forall (fun y => c < fst y) l1
                  /\ Forall (fun y => c <= fst y) l2)
              /\ (forall x s, nt = Some (x :: s) ->
                  schedule tz lang now ds =
                  Ok (EEEE tz lang c ++ lit ", " ++ ddMMyyyy tz c ++ lit ", "
                        ++ x :: s, c))
          | None =>
              l = []
              /\ (forall f t,
                  dateFrom (select_window now ds) = Some f ->
                  dateTo (select_window now ds) = Some t ->
                  schedule tz lang now ds =
                  Ok (lit "From " ++ ddMMyyyy tz f ++ lit " to "
                        ++ ddMMyyyy tz t, f))
          end.
Proof.
  intros Hoh Hhd Hf Ht Hl.
  split; [intros c; apply in_range_closed; assumption|].
  split.
  { eapply Forall_impl; [|eapply offers_in_range; [exact Hhd|exact Hl]].
    intros x Hx. apply (in_range_closed first f0 t0); assumption. }
  assert (Hpasses : passes tz 7 now oh ds None
                    = Ok (fold_left pick l None)).
  { rewrite (passes_pick tz now oh ds 6 None), Hl. reflexivity. }
  exists (fold_left pick l None). split; [exact Hpasses|].
  pose proof (fold_pick_first_min l) as Hmin.
  assert (Hsched : schedule tz lang now ds
                   = recurring tz lang now ds (select_window now ds) oh).
  { unfold schedule. rewrite Hoh. reflexivity. }
  destruct (fold_left pick l None) as [[c nt]|] eqn:Hfold.
  - split; [exact Hmin|].
    intros x s ->. rewrite Hsched. unfold recurring.
    rewrite Hpasses. reflexivity.
  - split; [exact Hmin|].
    intros f t Hwf Hwt. rewrite Hsched. unfold recurring.
    rewrite Hpasses. unfold bind. rewrite Hwf, Hwt. reflexivity.
Qed.


(** During the whole hour in which the event opens, today's candidate is
    not moved. *)
Lemma same_hour_keeps_today (tz now h : Z) (from : jsstring) :
  parseInt (before_colon from) = Some h ->
  getHours tz now = h ->
  past_todays_opening tz now (getDay tz now)
    {| OpeningHour.from := Some from |} = Ok false.
Proof.
  intros Hp Hh. unfold past_todays_opening.
  rewrite Z.eqb_refl. simpl. rewrite Hp, Hh. simpl.
  rewrite Z.ltb_irrefl. reflexivity.
Qed.


(* ================================================================== *)
(** * Records that the callback accepts *)
(* ================================================================== *)

Lemma get_In {A} (o : JsObject A) (k : jsstring) (v : A) :
  get o k = Some v -> exists k', In (k', v) o.
Proof.
  induction o as [|[k0 v0] o IH]; simpl; [discriminate|].
  destruct (str_eqb k0 k).
  - intros H. injection H as ->. exists k0. left. reflexivity.
  - intros H. destruct (IH H) as [k' Hk']. exists k'. right. exact Hk'.
Qed.

Lemma offers_total (tz now : Z) (oh : OpeningHours) (ds : list Raw.DateObject) :
  hours_have_from oh -> ds <> [] ->
  forall days index, exists l, offers tz now oh ds index days = Ok l.
Proof.
  intros Hoh Hds. induction days as [|day rest IH]; intros index; simpl.
  - exists []. reflexivity.
  - assert (exists a, day_offer tz now oh ds index day = Ok a) as [a ->].
    { unfold day_offer. destruct (get oh day) as [e|] eqn:He; [|eauto].
      apply get_In in He as [k Hk].
      unfold hours_have_from in Hoh. rewrite Forall_forall in Hoh.
      specialize (Hoh _ Hk). simpl in Hoh.
      destruct ds as [|first rest']; [congruence|].
      unfold past_todays_opening.
      destruct (index =? getDay tz now); simpl; [|eauto].
      destruct (OpeningHour.from e); [simpl; eauto|congruence]. }
    destruct (IH (index + 1)) as [b ->]. simpl. eauto.
Qed.

Lemma select_loop_origin (now : Z) (len : nat) (ds : list Raw.DateObject) :
  forall cur,
  select_loop now len ds cur = cur
  \/ exists d, In d ds /\ select_loop now len ds cur = Some (window_of d).
Proof.
  induction ds as [|d r IH]; intros cur; simpl; [left; reflexivity|].
  destruct (date_ge (Raw.from d) (Some now) || Nat.eqb len 1).
  - right. exists d. auto.
  - right. destruct (IH (Some (window_of d))) as [->|(d' & Hd' & ->)].
    + exists d. auto.
    + exists d'. auto.
Qed.

Lemma select_window_origin (now : Z) (ds : list Raw.DateObject) :
  select_window now ds = now_window now
  \/ exists d, In d ds /\ select_window now ds = window_of d.
Proof.
  unfold select_window.
  destruct (select_loop_origin now (List.length ds) ds None)
    as [->|(d & Hd & ->)]; [left; reflexivity|right; eauto].
Qed.

Lemma schedule_total (tz : Z) (lang : jsstring) (now : Z)
  (ds : list Raw.DateObject) :
  Forall window_ok ds -> exists s d, schedule tz lang now ds = Ok (s, d).
Proof.
  intros Hds. unfold schedule.
  destruct (select_window_origin now ds) as [->|(d & Hd & ->)].
  - simpl. unfold non_recurring. simpl. eauto.
  - rewrite Forall_forall in Hds.
    destruct (Hds d Hd) as (Hf & Ht & Hoh).
    unfold window_of; simpl.
    destruct (Raw.from d) as [f|] eqn:Ef; [|congruence].
    destruct (Raw.to d) as [t|] eqn:Et; [|congruence].
    destruct (Raw.openingHours d) as [oh|].
    + unfold recurring.
      assert (ds <> []) as Hne by (intros ->; destruct Hd).
      rewrite (passes_pick tz now oh ds 6 None).
      unfold accepted_candidates.
      destruct (offers_total tz now oh ds Hoh Hne daysOfWeek 0) as [l ->].
      unfold bind. simpl dateFrom. simpl dateTo.
      destruct (fold_left pick l None) as [[c [[|x s]|]]|]; eauto.
    + unfold non_recurring. simpl. eauto.
Qed.

Lemma normalize_total (tz : Z) (lang : jsstring) (now : Z) (r : Raw.RawRecord) :
  containers_present r -> exists ev, normalize tz lang now r = Ok ev.
Proof.
  intros (Hv & Hp & Ht & Hd & ds & Hds & Hok).
  unfold normalize. rewrite Hds.
  destruct (schedule_total tz lang now ds Hok) as (s & d & Hs).
  simpl. rewrite Hs. simpl.
  destruct (Raw.venues r); [|congruence].
  destruct (Raw.pictures r); [|congruence].
  destruct (Raw.title r); [|congruence].
  destruct (Raw.description r); [|congruence].
  simpl. eauto.
Qed.

Lemma map_throwing_total {A B} (f : nat -> A -> Result B) (g : B -> A)
  (l : list A) :
  (forall i a, In a l -> exists b, f i a = Ok b /\ g b = a) ->
  forall i, exists bs, map_throwing f i l = Ok bs /\ map g bs = l.
Proof.
  induction l as [|a l IH]; intros H i; simpl.
  - exists []. auto.
  - destruct (H i a (or_introl eq_refl)) as (b & -> & Hg).
    destruct (IH (fun j x Hx => H j x (or_intror Hx)) (S i))
      as (bs & -> & Hbs).
    simpl. exists (b :: bs). simpl. rewrite Hg, Hbs. auto.
Qed.

Lemma normalize_defaults (tz : Z) (lang : jsstring) (now : Z)
  (r : Raw.RawRecord) (ev : Event) :
  normalize tz lang now r = Ok ev -> degrades_to_defaults ev.
Proof.
  intros H.
  destruct (normalize_Ok_contact _ _ _ _ _ H) as (Hphone & Hemail & Hweb).
  apply normalize_Ok in H
    as (ds & vs & ps & ts & dd & _ & Hvs & Hps & Hts & Hdd & _ & _ & _
        & Htitle & _ & Hdesc & Haddr & Himg & Habs & Hname & Hrec).
  unfold degrades_to_defaults. rewrite Hrec.
  split; [|repeat split].
  - intros Hsc. rewrite Hname, Hphone, Hemail, Hweb, Hsc. auto.
  - intros Hv. rewrite Hvs in Hv. injection Hv as ->.
    rewrite Haddr. reflexivity.
  - rewrite Hps in H. injection H as ->. rewrite Himg. reflexivity.
  - rewrite Hps in H. injection H as ->. rewrite Habs. reflexivity.
  - intros Ht. rewrite Hts in Ht. injection Ht as ->.
    rewrite Htitle. reflexivity.
  - intros Hd. rewrite Hdd in Hd. injection Hd as ->.
    rewrite Hdesc. reflexivity.
Qed.

(** C8: when every record of the batch has its [dates],
    [venues] and [pictures] arrays and its [title] and [description]
    objects, with valid bounds on every date window and a [from] time on
    every opening-hours entry, the callback returns an event for each
    record, in order, and the batch yields a list; an absent
    [salesContact], an empty [venues] or [pictures] array and an empty
    [title] or [description] object fall back to their defaults. *)
Theorem C8_total_when_containers_present (tz : Z) (lang : jsstring)
  (clock : nat -> Z) (records : list Raw.RawRecord) :
  Forall containers_present records ->
  exists mapped,
    map_throwing (fun i r => normalize tz lang (clock i) r) 0 records
      = Ok mapped
    /\ map record mapped = records
    /\ Forall degrades_to_defaults mapped
    /\ events_of_records tz lang clock records
       = Ok (filter has_image (sort_by_date mapped)).
Proof.
  intros Hall. rewrite Forall_forall in Hall.
  destruct (map_throwing_total
              (fun i r => normalize tz lang (clock i) r) record records)
    with (i := 0%nat) as (mapped & Hmap & Hrec).
  { intros i r Hr.
    destruct (normalize_total tz lang (clock i) r (Hall r Hr)) as [ev Hev].
    exists ev. split; [assumption|].
    apply normalize_Ok in Hev.
    destruct Hev as (? & ? & ? & ? & ? & Hev). apply Hev. }
  exists mapped. split; [assumption|]. split; [assumption|]. split.
  - rewrite Forall_forall. intros ev Hev.
    destruct (map_throwing_In _ _ _ _ Hmap ev Hev) as (k & r & _ & Hk).
    eapply normalize_defaults, Hk.
  - unfold events_of_records. rewrite Hmap. reflexivity.
Qed.

(* ================================================================== *)
(** * The model on the sample records *)
(* ================================================================== *)

Example sanitize_hello :
  sanitize (lit "<style>.a{}</style><p>Hello</p><p>World</p>") = lit "Hello World".
Proof. vm_compute. reflexivity. Qed.

(** A description without [<p>] element: [match] returns [null] and the
    text is dropped altogether. *)
Example no_paragraph_no_text :
  sanitize (lit "Hello <b>World</b>") = []
  /\ sanitize (lit "<P>Hello</P>") = []
  /\ sanitize (lit "<p>a &amp; b&nbsp;c</p>  <p><i>d</i></p>")
     = lit "a &amp; b c d".
Proof. vm_compute. repeat split. Qed.

Example civil_epoch : civil_from_days 0 = (1970, 1, 1).
Proof. reflexivity. Qed.

Example civil_leap : civil_from_days 19782 = (2024, 2, 29).
Proof. reflexivity. Qed.

Example format_sample :
  ddMMyyyy 3600000 1736328600000 = lit "08/01/2025"
  /\ HHmm 3600000 1736328600000 = lit "10:30"
  /\ EEEE 3600000 (lit "de") 1736328600000 = lit "Mittwoch".
Proof. vm_compute. repeat split. Qed.

(** The white space removed by [/\s+/g] includes U+FEFF, so the
    replacement of U+FEFF by ["<br/><br/>"] finds nothing to replace. *)
Lemma bom_replacement_is_idle (s rep : jsstring) :
  let collapsed := replace_g m_ws (lit " ") 0 s in
  replace_g (m_lit [65279%N]) rep 0 collapsed = collapsed.
Proof.
  cbv zeta. apply (replace_g_no_match _ _ _ 65279%N); [reflexivity|].
  intros Hin.
  pose proof (collapse_plain s 0) as H. rewrite Forall_forall in H.
  specialize (H _ Hin eq_refl). discriminate.
Qed.

(** C2: on Wednesday 8 January 2025 at 10:30,
    for an entry that opens on Wednesdays at ["10:00"], the test compares
    the hour 10 with the hour 10 and leaves the candidate in the current
    week: the occurrence is that same Wednesday at the clock time of
    [now], although the opening time has passed by thirty minutes. *)
Theorem C2_hour_only_comparison :
  let e := {| OpeningHour.from := Some (lit "10:00") |} in
  getDay cet wednesday_1030 = 3
  /\ HHmm cet wednesday_1030 = lit "10:30"
  /\ parseInt (before_colon (lit "10:00")) = Some 10
  /\ past_todays_opening cet wednesday_1030 3 e = Ok false
  /\ candidate cet wednesday_1030 3 false = wednesday_1030
  /\ schedule cet (lit "en") wednesday_1030 [wednesdays_at_ten]
     = Ok (lit "Wednesday, 08/01/2025, 10:00", wednesday_1030).
Proof. cbv zeta. vm_compute. repeat split. Qed.

(** The other half of the rule holds: on Wednesday at 09:00, an entry for
    Mondays at ["10:00"] resolves to the Monday of the following week. *)
Example monday_after_wednesday :
  getDay cet wednesday_0900 = 3
  /\ candidate cet wednesday_0900 1 false = jan2025 13 9 0
  /\ schedule cet (lit "en") wednesday_0900
       [window (jan2025 1 0 0) (jan2025 31 0 0) (Some [opens "monday" "10:00"])]
     = Ok (lit "Monday, 13/01/2025, 10:00", jan2025 13 9 0).
Proof. vm_compute. repeat split. Qed.

(** With a later opening hour the same Wednesday stays in the week; one
    full hour after the opening hour it moves to the next week. *)
Example wednesday_hours :
  past_todays_opening cet wednesday_1030 3
    {| OpeningHour.from := Some (lit "11:00") |} = Ok false
  /\ past_todays_opening cet (jan2025 8 11 0) 3
       {| OpeningHour.from := Some (lit "10:00") |} = Ok true
  /\ candidate cet (jan2025 8 11 0) 3 true = jan2025 15 11 0.
Proof. vm_compute. repeat split. Qed.

Lemma C4_recurring_choice_witness :
  openingHours (select_window wednesday_0900 january_then_mondays)
    = Some [opens "monday" "10:00"]
  /\ dateFrom (select_window wednesday_0900 january_then_mondays)
     = Some (jan2025 32 0 0)
  /\ schedule cet (lit "en") wednesday_0900 january_then_mondays
     = Ok (lit "Monday, 13/01/2025, 10:00", jan2025 13 9 0).
Proof.
  assert (Hoh : openingHours (select_window wednesday_0900 january_then_mondays)
                = Some [opens "monday" "10:00"]) by reflexivity.
  assert (Hl : accepted_candidates cet wednesday_0900 [opens "monday" "10:00"]
                 january_then_mondays
               = Ok [(jan2025 13 9 0, Some (lit "10:00"))])
    by (vm_compute; reflexivity).
  destruct (C4_recurring_choice cet (lit "en") wednesday_0900
              january_then_mondays _ _ (jan2025 1 0 0) (jan2025 31 0 0) _
              Hoh eq_refl eq_refl eq_refl Hl)
    as (_ & _ & next & Hp & Hnext).
  vm_compute in Hp. injection Hp as <-.
  destruct Hnext as [_ Hs].
  split; [exact Hoh|]. split; [reflexivity|].
  rewrite (Hs _ _ eq_refl). vm_compute. reflexivity.
Defined.

Lemma C5_non_recurring_format_witness :
  let ds := [window (jan2025 8 10 30) (jan2025 9 10 30) None] in
  jan2025 9 10 30 - jan2025 8 10 30 = 86400000
  /\ schedule cet (lit "en") wednesday_0900 ds
     = Ok (lit "Wednesday, 08/01/2025, 10:30-10:30", jan2025 8 10 30).
Proof.
  cbv zeta. split; [reflexivity|].
  destruct (C5_non_recurring_format cet (lit "en") wednesday_0900
              [window (jan2025 8 10 30) (jan2025 9 10 30) None]
              (jan2025 8 10 30) (jan2025 9 10 30) eq_refl eq_refl eq_refl)
    as (s & Hs & _ & _ & Hdiff).
  rewrite Hs, Hdiff.
  - vm_compute. reflexivity.
  - vm_compute. discriminate.
  - vm_compute. discriminate.
Defined.

(** One second less than a day, and one millisecond more. *)
Example day_boundary :
  schedule cet (lit "en") wednesday_0900
    [window (jan2025 8 10 30) (jan2025 9 10 30 - 1000) None]
  = Ok (lit "Wednesday, 08/01/2025, 10:30-10:29", jan2025 8 10 30)
  /\ schedule cet (lit "en") wednesday_0900
       [window (jan2025 8 10 30) (jan2025 9 10 30 + 1) None]
     = Ok (lit "From 08/01/2025 to 09/01/2025", jan2025 8 10 30)
  /\ schedule cet (lit "de") wednesday_0900
       [window (jan2025 8 10 30) (jan2025 8 12 30) None]
     = Ok (lit "Mittwoch, 08/01/2025, 10:30", jan2025 8 10 30).
Proof. vm_compute. repeat split. Qed.

Lemma C6_output_sorted_and_pictured_witness :
  exists evs,
    events_of_records cet (lit "fr") (fun _ => wednesday_0900)
      [concert; market; talk] = Ok evs
    /\ map id evs = [lit "market"; lit "concert"]
    /\ StronglySorted (fun a b => date a <= date b) evs
    /\ Forall (fun e => absoluteImageUrl e <> []) evs.
Proof.
  destruct (events_of_records cet (lit "fr") (fun _ => wednesday_0900)
              [concert; market; talk]) as [evs|err] eqn:H;
    [|vm_compute in H; discriminate].
  exists evs. split; [reflexivity|].
  destruct (C6_output_sorted_and_pictured _ _ _ _ _ H) as (Hs & Hi & _).
  split; [|split; assumption].
  vm_compute in H. injection H as <-. reflexivity.
Defined.

Lemma C7_locale_fallback_chain_witness :
  exists ev,
    normalize cet (lit "fr") wednesday_0900 concert = Ok ev
    /\ title ev = lit "Konzert".
Proof.
  destruct (normalize cet (lit "fr") wednesday_0900 concert) as [ev|err] eqn:H;
    [|vm_compute in H; discriminate].
  exists ev. split; [reflexivity|].
  destruct (C7_locale_fallback_chain _ _ _ _ _ H (or_introl eq_refl))
    as (ts & dd & Hts & _ & (_ & _ & Hde & _) & _).
  simpl in Hts. injection Hts as <-.
  specialize (Hde eq_refl eq_refl eq_refl).
  vm_compute in Hde. injection Hde as Hde. symmetry. exact Hde.
Defined.

(** C8, counterexample: a record without [title] object makes
    the callback throw a TypeError, and so does one without [description]
    object, [venues] array or [pictures] array; the exception ends the
    whole [map], so a batch that holds such a record yields no list. *)
Lemma C8_missing_container_aborts_batch :
  normalize cet (lit "fr") wednesday_0900 without_title = Throw TypeError
  /\ normalize cet (lit "fr") wednesday_0900 without_description
     = Throw TypeError
  /\ normalize cet (lit "fr") wednesday_0900 without_venues = Throw TypeError
  /\ normalize cet (lit "fr") wednesday_0900 without_pictures
     = Throw TypeError
  /\ (exists ev, normalize cet (lit "fr") wednesday_0900 concert = Ok ev)
  /\ events_of_records cet (lit "fr") (fun _ => wednesday_0900)
       [concert; without_title; market] = Throw TypeError.
Proof.
  repeat split; try (vm_compute; reflexivity).
  destruct (normalize cet (lit "fr") wednesday_0900 concert) as [ev|err] eqn:H;
    [exists ev; reflexivity|vm_compute in H; discriminate].
Qed.

Lemma sample_windows_ok (r : Raw.RawRecord) :
  In r [concert; market; talk] -> containers_present r.
Proof.
  intros [<-| [<-| [<-| []]]];
    (repeat split; try discriminate;
     eexists; split; [reflexivity|];
     repeat constructor; discriminate).
Qed.

Lemma C8_total_when_containers_present_witness :
  Forall containers_present [concert; market; talk]
  /\ exists mapped,
       map_throwing (fun i r => normalize cet (lit "fr") (wednesday_0900 + Z.of_nat i) r)
         0 [concert; market; talk] = Ok mapped
       /\ map record mapped = [concert; market; talk]
       /\ Forall degrades_to_defaults mapped.
Proof.
  assert (H : Forall containers_present [concert; market; talk])
    by (apply Forall_forall; exact sample_windows_ok).
  split; [exact H|].
  destruct (C8_total_when_containers_present cet (lit "fr")
              (fun i => wednesday_0900 + Z.of_nat i) _ H)
    as (mapped & Hmap & Hrec & Hdef & _).
  exists mapped. auto.
Defined.


Lemma C10_url_is_english_page_witness :
  exists ev,
    normalize cet (lit "de") wednesday_0900 market = Ok ev
    /\ url ev = lit "https://www.echo.lu/en/experiences/market".
Proof.
  destruct (normalize cet (lit "de") wednesday_0900 market) as [ev|err] eqn:H;
    [|vm_compute in H; discriminate].
  exists ev. split; [reflexivity|].
  rewrite (C10_url_is_english_page _ _ _ _ _ H). reflexivity.
Defined.

(* ================================================================== *)
(** * Further properties of the description sanitizer *)
(* ================================================================== *)

(** X1: whatever the description, the only white space left in the
    sanitized text is the plain space: no line feed, carriage return,
    tab, no-break space or U+FEFF survives. *)
Theorem X1_sanitize_whitespace_is_plain (s : jsstring) :
  Forall (fun c => is_space c = true -> c = 32%N) (sanitize s)
  /\ ~ In 10%N (sanitize s) /\ ~ In 13%N (sanitize s)
  /\ ~ In 9%N (sanitize s) /\ ~ In 160%N (sanitize s)
  /\ ~ In 65279%N (sanitize s).
Proof.
  pose proof (sanitize_plain s) as H.
  split; [exact H|].
  rewrite Forall_forall in H.
  repeat split; intros Hin; specialize (H _ Hin eq_refl); discriminate.
Qed.

(** X2: the step that replaces U+FEFF by ["<br/><br/>"] never changes the
    text: the description is the white-space collapse followed by the
    [&nbsp;] replacement alone. *)
Theorem X2_sanitize_without_bom_step (s : jsstring) :
  sanitize s =
  replace_g (m_lit (lit "&nbsp;")) (lit " ") 0
    (replace_g m_ws (lit " ") 0
       (trim (replace_g m_tag [] 0
                (extract_paragraphs (replace_g m_style [] 0 s))))).
Proof.
  unfold sanitize. cbv zeta.
  rewrite (bom_replacement_is_idle _ (lit "<br/><br/>")).
  reflexivity.
Qed.

Lemma canon_lt (c : N) : canon c = 60%N -> c = 60%N.
Proof.
  unfold canon.
  destruct ((97 <=? c) && (c <=? 122))%N eqn:H; [|auto].
  apply andb_true_iff in H as [H1 H2].
  apply N.leb_le in H1. lia.
Qed.

Lemma style_needs_lt (c : N) (r : jsstring) :
  c <> 60%N -> m_style (c :: r) = None.
Proof.
  intros Hc. unfold m_style.
  assert (startsWith_ci (c :: r) (lit "<style") = false) as ->; [|reflexivity].
  change (startsWith_ci (c :: r) (lit "<style"))
    with (N.eqb (canon 60) (canon c) && startsWith_ci r (lit "style")).
  destruct (N.eqb_spec (canon 60) (canon c)) as [Heq|]; [|reflexivity].
  exfalso. apply Hc. apply canon_lt. symmetry. exact Heq.
Qed.

Lemma p_needs_lt (c : N) (r : jsstring) : c <> 60%N -> m_p (c :: r) = None.
Proof.
  intros Hc. unfold m_p, p_group.
  change (startsWith (c :: r) (lit "<p>"))
    with (N.eqb 60 c && startsWith r (lit "p>")).
  destruct (N.eqb_spec 60 c) as [Heq|]; [congruence|reflexivity].
Qed.

Lemma no_lt_no_style (s : jsstring) :
  ~ In 60%N s -> replace_g m_style [] 0 s = s.
Proof.
  induction s as [|c r IH]; intros H; [reflexivity|].
  simpl replace_g. rewrite style_needs_lt by (intros ->; apply H; left; reflexivity).
  f_equal. apply IH. intros Hin. apply H. right. exact Hin.
Qed.

Lemma no_lt_no_paragraph (s : jsstring) :
  ~ In 60%N s -> match_g m_p 0 s = [].
Proof.
  induction s as [|c r IH]; intros H; [reflexivity|].
  simpl match_g. rewrite p_needs_lt by (intros ->; apply H; left; reflexivity).
  apply IH. intros Hin. apply H. right. exact Hin.
Qed.

(** X3: a description without any [<] (plain text, no markup at all) is
    dropped: the sanitized text is empty. *)
Theorem X3_plain_text_is_dropped (s : jsstring) :
  ~ In 60%N s -> sanitize s = [].
Proof.
  intros H. unfold sanitize, extract_paragraphs. cbv zeta.
  rewrite (no_lt_no_style s H), (no_lt_no_paragraph s H). reflexivity.
Qed.

Lemma X3_plain_text_is_dropped_witness :
  sanitize (lit "Concert at 20:00, free entry") = [].
Proof.
  apply X3_plain_text_is_dropped.
  vm_compute. intuition discriminate.
Defined.

Lemma replace_g_In (m : matcher) (rep : jsstring) (x : N) (s : jsstring) :
  forall skip, In x (replace_g m rep skip s) -> In x rep \/ In x s.
Proof.
  induction s as [|c r IH]; intros skip H.
  - destruct skip; simpl in H; [|destruct H].
    destruct (m []) as [[|k]|]; rewrite ?app_nil_r in H; auto.
  - destruct skip; simpl in H.
    + destruct (m (c :: r)) as [[|k]|].
      * apply in_app_or in H as [H|[H|H]]; auto.
        -- right. left. exact H.
        -- destruct (IH _ H); auto. right. right. assumption.
      * apply in_app_or in H as [H|H]; auto.
        destruct (IH _ H); auto. right. right. assumption.
      * destruct H as [H|H]; [right; left; exact H|].
        destruct (IH _ H); auto. right. right. assumption.
    + destruct (IH _ H); auto. right. right. assumption.
Qed.

Lemma existsb_gt_false (s : jsstring) :
  existsb (N.eqb 62) s = false <-> ~ In 62%N s.
Proof.
  split.
  - intros H Hin.
    assert (existsb (N.eqb 62) s = true) as Ht
      by (apply existsb_exists; exists 62%N; split; [assumption|apply N.eqb_refl]).
    congruence.
  - intros H. destruct (existsb (N.eqb 62) s) eqn:E; [|reflexivity].
    apply existsb_exists in E as (x & Hx & Hx'). apply N.eqb_eq in Hx'.
    subst. contradiction.
Qed.

Lemma index_of_None (c : N) (s : jsstring) :
  index_of c s = None -> ~ In c s.
Proof.
  induction s as [|x r IH]; simpl; [tauto|].
  destruct (N.eqb_spec x c) as [->|Hne]; [discriminate|].
  destruct (index_of c r); [discriminate|].
  intros _ [H|H]; [contradiction|]. apply IH; auto.
Qed.

(** After [replace(/<[^>]*>/g, '')] no [<] is followed by a [>]. *)
Lemma strip_no_tag (s : jsstring) :
  forall skip, no_tag (replace_g m_tag [] skip s) = true.
Proof.
  induction s as [|c r IH]; intros skip.
  - destruct skip; reflexivity.
  - destruct skip; [|apply IH].
    simpl replace_g. unfold m_tag.
    destruct (N.eqb_spec c 60) as [->|Hne].
    + destruct (index_of 62 r) as [k|] eqn:Hk; simpl option_map; cbv iota.
      * replace (k + 2)%nat with (S (S k)) by lia. apply IH.
      * simpl. apply negb_true_iff, existsb_gt_false.
        intros Hin. apply replace_g_In in Hin as [[]|Hin].
        revert Hin. apply index_of_None, Hk.
    + assert (match c with 60%N => option_map (fun k => (k + 2)%nat) (index_of 62 r)
                         | _ => None end = None) as ->.
      { destruct c as [|p]; [reflexivity|].
        do 6 (destruct p as [p|p|]; try reflexivity). congruence. }
      simpl. destruct (N.eqb_spec c 60); [contradiction|]. apply IH.
Qed.

Lemma existsb_gt_angles (s : jsstring) :
  existsb (N.eqb 62) (filter is_angle s) = existsb (N.eqb 62) s.
Proof.
  induction s as [|x r IH]; [reflexivity|].
  cbn [filter existsb]. unfold is_angle at 1.
  destruct (N.eqb_spec x 60) as [->|H60]; cbn [orb].
  - cbn [existsb]. rewrite IH. reflexivity.
  - destruct (N.eqb_spec x 62) as [->|H62].
    + cbn [existsb]. rewrite N.eqb_refl. reflexivity.
    + rewrite IH. destruct (N.eqb_spec 62 x); [congruence|reflexivity].
Qed.

Lemma no_tag_angles (s : jsstring) :
  no_tag s = no_tag (filter is_angle s).
Proof.
  induction s as [|c r IH]; [reflexivity|].
  cbn [no_tag filter]. unfold is_angle at 1.
  destruct (N.eqb_spec c 60) as [->|H60]; cbn [orb].
  - cbn [no_tag]. rewrite N.eqb_refl, existsb_gt_angles. reflexivity.
  - destruct (N.eqb_spec c 62) as [->|H62]; [|exact IH].
    cbn [no_tag]. destruct (N.eqb_spec 62 60); [discriminate|exact IH].
Qed.

Lemma space_not_angle (c : N) : is_space c = true -> not_angle c.
Proof.
  unfold not_angle, is_angle. intros H.
  destruct (N.eqb_spec c 60) as [->|]; [discriminate|].
  destruct (N.eqb_spec c 62) as [->|]; [discriminate|reflexivity].
Qed.

Lemma filter_not_angle (s : jsstring) :
  Forall not_angle s -> filter is_angle s = [].
Proof.
  induction 1 as [|c r Hc _ IH]; [reflexivity|].
  simpl. rewrite Hc. exact IH.
Qed.

(** A replacement that removes and inserts no angle bracket keeps the
    sequence of angle brackets. *)
Lemma replace_g_angles (m : matcher) (rep : jsstring) :
  (forall s n, m s = Some n -> Forall not_angle (firstn n s)) ->
  Forall not_angle rep ->
  forall s skip, Forall not_angle (firstn skip s) ->
  filter is_angle (replace_g m rep skip s) = filter is_angle s.
Proof.
  intros Hm Hrep s.
  pose proof (filter_not_angle rep Hrep) as Hr.
  induction s as [|c r IH]; intros skip Hskip.
  - destruct skip; simpl; [|reflexivity].
    destruct (m []) as [[|k]|]; rewrite ?app_nil_r; auto.
  - destruct skip.
    + simpl replace_g.
      destruct (m (c :: r)) as [[|k]|] eqn:E.
      * rewrite filter_app, Hr. simpl. rewrite IH by constructor. reflexivity.
      * specialize (Hm _ _ E). simpl in Hm.
        inversion Hm as [|? ? Hc Hk]; subst.
        rewrite filter_app, Hr. simpl. rewrite Hc. apply IH, Hk.
      * simpl. rewrite IH by constructor. reflexivity.
    + simpl in Hskip. inversion Hskip as [|? ? Hc Hk]; subst.
      simpl. rewrite Hc. apply IH, Hk.
Qed.

Lemma m_ws_spaces (s : jsstring) (n : nat) :
  m_ws s = Some n -> Forall not_angle (firstn n s).
Proof.
  unfold m_ws. intros H.
  assert (n = count_space s) as ->
    by (destruct (count_space s); [discriminate|congruence]).
  clear H. induction s as [|c r IH]; simpl; [constructor|].
  destruct (is_space c) eqn:Hc; simpl; [|constructor].
  constructor; [apply space_not_angle, Hc|exact IH].
Qed.

Lemma startsWith_firstn (s p : jsstring) :
  startsWith s p = true -> firstn (List.length p) s = p.
Proof.
  revert s. induction p as [|x p IH]; intros s H; [reflexivity|].
  destruct s as [|y s]; [discriminate|].
  simpl in H. apply andb_true_iff in H as [Hxy H].
  apply N.eqb_eq in Hxy. subst. simpl. f_equal. apply IH, H.
Qed.

Lemma m_lit_not_angle (p s : jsstring) (n : nat) :
  Forall not_angle p -> m_lit p s = Some n -> Forall not_angle (firstn n s).
Proof.
  unfold m_lit. intros Hp H.
  destruct (startsWith s p) eqn:E; [|discriminate].
  injection H as <-. rewrite (startsWith_firstn _ _ E). exact Hp.
Qed.

Lemma trimStart_angles (s : jsstring) :
  filter is_angle (trimStart s) = filter is_angle s.
Proof.
  induction s as [|c r IH]; [reflexivity|].
  simpl trimStart. destruct (is_space c) eqn:Hc; [|reflexivity].
  simpl. rewrite (space_not_angle c Hc). exact IH.
Qed.

Lemma filter_rev_angles (s : jsstring) :
  filter is_angle (rev s) = rev (filter is_angle s).
Proof.
  induction s as [|c r IH]; [reflexivity|].
  simpl. rewrite filter_app, IH. simpl.
  destruct (is_angle c); simpl; [reflexivity|apply app_nil_r].
Qed.

Lemma trim_angles (s : jsstring) :
  filter is_angle (trim s) = filter is_angle s.
Proof.
  unfold trim.
  rewrite filter_rev_angles, trimStart_angles, filter_rev_angles,
    rev_involutive, trimStart_angles.
  reflexivity.
Qed.

Lemma no_tag_split (s : jsstring) :
  no_tag s = true -> forall l1 l2, s = l1 ++ 60%N :: l2 -> ~ In 62%N l2.
Proof.
  induction s as [|c r IH]; intros H l1 l2 E.
  - destruct l1; discriminate.
  - cbn [no_tag] in H.
    destruct l1 as [|x l1]; simpl in E; injection E as Hc Hr; subst c r.
    + rewrite N.eqb_refl in H.
      apply negb_true_iff, existsb_gt_false in H. exact H.
    + destruct (N.eqb x 60).
      * apply negb_true_iff, existsb_gt_false in H.
        intros Hin. apply H. apply in_or_app. right. right. exact Hin.
      * eapply IH; [exact H|reflexivity].
Qed.

(** X4: no complete tag survives: in the sanitized text no [<] is
    followed, anywhere later, by a [>]. *)
Theorem X4_sanitize_leaves_no_tag (s l1 l2 : jsstring) :
  sanitize s = l1 ++ 60%N :: l2 -> ~ In 62%N l2.
Proof.
  apply no_tag_split.
  rewrite no_tag_angles. unfold sanitize. cbv zeta.
  rewrite (bom_replacement_is_idle _ (lit "<br/><br/>")).
  rewrite (replace_g_angles (m_lit (lit "&nbsp;")) (lit " ")); cycle 1.
  { intros s' n. apply m_lit_not_angle. repeat constructor. }
  { repeat constructor. }
  { constructor. }
  rewrite (replace_g_angles m_ws (lit " ") m_ws_spaces); cycle 1.
  { repeat constructor. }
  { constructor. }
  rewrite trim_angles, <- no_tag_angles.
  apply strip_no_tag.
Qed.

Lemma X4_sanitize_leaves_no_tag_witness :
  sanitize (lit "<p>a < b</p><p>c</p>") = lit "a " ++ 60%N :: lit " b c"
  /\ ~ In 62%N (lit " b c").
Proof.
  assert (H : sanitize (lit "<p>a < b</p><p>c</p>")
              = lit "a " ++ 60%N :: lit " b c") by (vm_compute; reflexivity).
  split; [exact H|].
  exact (X4_sanitize_leaves_no_tag _ _ _ H).
Defined.

(* ================================================================== *)
(** * Further properties of the callback *)
(* ================================================================== *)



Lemma local_day_addDays (tz t k : Z) :
  local_day tz (t + k * msPerDay) = local_day tz t + k.
Proof.
  unfold local_day.
  replace (t + k * msPerDay + tz) with (t + tz + k * msPerDay) by lia.
  apply Z.div_add. discriminate.
Qed.

Lemma getDay_range (tz t : Z) : 0 <= getDay tz t <= 6.
Proof. unfold getDay. pose proof (Z.mod_pos_bound (local_day tz t + 4) 7). lia. Qed.







Lemma parse_hour (h : Z) (mm : jsstring) :
  0 <= h <= 23 ->
  parseInt (before_colon (addLeadingZeros h 2 ++ lit ":" ++ mm)) = Some h.
Proof.
  intros Hh.
  assert (H : h = 0 \/ h = 1 \/ h = 2 \/ h = 3 \/ h = 4 \/ h = 5 \/ h = 6
              \/ h = 7 \/ h = 8 \/ h = 9 \/ h = 10 \/ h = 11 \/ h = 12
              \/ h = 13 \/ h = 14 \/ h = 15 \/ h = 16 \/ h = 17 \/ h = 18
              \/ h = 19 \/ h = 20 \/ h = 21 \/ h = 22 \/ h = 23) by lia.
  repeat (destruct H as [->|H]; [vm_compute; reflexivity|]).
  subst h. vm_compute. reflexivity.
Qed.

(** X7: for an opening time written [HH:MM] with [HH] from 00 to 23,
    today's candidate moves to the next week exactly when the hour of
    [now] is strictly greater than [HH]; the minutes of the opening time
    and of [now] play no part. *)
Theorem X7_opening_hour_rule (tz now h : Z) (mm : jsstring) :
  0 <= h <= 23 ->
  past_todays_opening tz now (getDay tz now)
    {| OpeningHour.from := Some (addLeadingZeros h 2 ++ lit ":" ++ mm) |}
  = Ok (h <? getHours tz now).
Proof.
  intros Hh. unfold past_todays_opening.
  rewrite Z.eqb_refl. cbn [OpeningHour.from deref bind].
  rewrite (parse_hour h mm Hh). reflexivity.
Qed.

Lemma X7_opening_hour_rule_witness :
  past_todays_opening cet (jan2025 8 10 59) 3
    {| OpeningHour.from := Some (lit "10:00") |} = Ok false
  /\ past_todays_opening cet (jan2025 8 11 0) 3
       {| OpeningHour.from := Some (lit "10:59") |} = Ok true.
Proof.
  split.
  - apply (X7_opening_hour_rule cet (jan2025 8 10 59) 10 (lit "00")). lia.
  - apply (X7_opening_hour_rule cet (jan2025 8 11 0) 10 (lit "59")). lia.
Defined.

(** X8: the outer loop is idle after its first round: any number of
    passes, from any state of [nextDate] and [nextTime], gives what one
    pass gives (an exception included). *)
Theorem X8_one_pass_is_enough (tz now : Z) (oh : OpeningHours)
  (ds : list Raw.DateObject) (n : nat) (st : NextOccurrence) :
  passes tz (S n) now oh ds st = passes tz 1 now oh ds st.
Proof. rewrite (passes_pick tz now oh ds n), (passes_pick tz now oh ds 0). reflexivity. Qed.





(* ================================================================== *)
(** * Further properties of the list assembly *)
(* ================================================================== *)

Lemma insert_by_date_first (e : Event) (l : list Event) :
  Forall (by_date e) l -> insert_by_date e l = e :: l.
Proof.
  destruct l as [|x l]; [reflexivity|].
  intros H. inversion H as [|? ? Hx _]; subst.
  simpl. unfold by_date in Hx. apply Z.leb_le in Hx. rewrite Hx. reflexivity.
Qed.

Lemma filter_insert_by_date (f : Event -> bool) (e : Event) (l : list Event) :
  StronglySorted by_date l ->
  filter f (insert_by_date e l)
  = if f e then insert_by_date e (filter f l) else filter f l.
Proof.
  induction 1 as [|x l Hl IH Hx]; simpl.
  - destruct (f e); reflexivity.
  - destruct (Z.leb_spec (date e) (date x)) as [Hle|Hgt].
    + simpl. destruct (f e) eqn:Hfe; [|reflexivity].
      symmetry. destruct (f x).
      * simpl. apply Z.leb_le in Hle. rewrite Hle. reflexivity.
      * apply insert_by_date_first.
        rewrite Forall_forall in Hx |- *. intros y Hy.
        apply filter_In in Hy as [Hy _]. specialize (Hx y Hy).
        unfold by_date in *. lia.
    + simpl. rewrite IH. destruct (f x), (f e); simpl; try reflexivity.
      apply Z.leb_gt in Hgt. rewrite Hgt. reflexivity.
Qed.

Lemma filter_sort_by_date (f : Event -> bool) (l : list Event) :
  filter f (sort_by_date l) = sort_by_date (filter f l).
Proof.
  induction l as [|e l IH]; [reflexivity|].
  simpl. rewrite filter_insert_by_date by apply sort_by_date_sorted.
  rewrite IH. destruct (f e); reflexivity.
Qed.

Lemma insert_by_date_Permutation (e : Event) (l : list Event) :
  Permutation (insert_by_date e l) (e :: l).
Proof.
  induction l as [|x l IH]; simpl; [reflexivity|].
  destruct (date e <=? date x); [reflexivity|].
  rewrite IH. apply perm_swap.
Qed.

Lemma sort_by_date_Permutation (l : list Event) :
  Permutation (sort_by_date l) l.
Proof.
  induction l as [|e l IH]; simpl; [reflexivity|].
  rewrite insert_by_date_Permutation, IH. reflexivity.
Qed.

Lemma map_throwing_length {A B} (f : nat -> A -> Result B) (l : list A) :
  forall i bs, map_throwing f i l = Ok bs -> List.length bs = List.length l.
Proof.
  induction l as [|a l IH]; intros i bs H; simpl in H.
  - injection H as <-. reflexivity.
  - apply bind_Ok in H as (b & _ & H).
    apply bind_Ok in H as (bs' & Hbs & H). injection H as <-.
    simpl. f_equal. eapply IH, Hbs.
Qed.

(** X10: the list returned for a batch holds, once each, exactly the
    events of the records that have a picture; filtering before the sort
    would give the same list. *)
Theorem X10_filter_and_sort_commute (tz : Z) (lang : jsstring)
  (clock : nat -> Z) (records : list Raw.RawRecord) (evs : list Event) :
  events_of_records tz lang clock records = Ok evs ->
  exists mapped,
    map_throwing (fun i r => normalize tz lang (clock i) r) 0 records
      = Ok mapped
    /\ List.length mapped = List.length records
    /\ evs = sort_by_date (filter has_image mapped)
    /\ Permutation evs (filter has_image mapped).
Proof.
  intros H. unfold events_of_records in H.
  apply bind_Ok in H as (mapped & Hmap & H). injection H as <-.
  exists mapped. split; [exact Hmap|].
  split; [eapply map_throwing_length, Hmap|].
  rewrite filter_sort_by_date.
  split; [reflexivity|apply sort_by_date_Permutation].
Qed.

Lemma X10_filter_and_sort_commute_witness :
  exists evs mapped,
    events_of_records cet (lit "fr") (fun _ => wednesday_0900)
      [concert; market; talk] = Ok evs
    /\ List.length mapped = 3%nat
    /\ evs = sort_by_date (filter has_image mapped).
Proof.
  destruct (events_of_records cet (lit "fr") (fun _ => wednesday_0900)
              [concert; market; talk]) as [evs|err] eqn:H;
    [|vm_compute in H; discriminate].
  destruct (X10_filter_and_sort_commute _ _ _ _ _ H)
    as (mapped & _ & Hlen & Hevs & _).
  exists evs, mapped. auto.
Defined.

Lemma filter_date_insert (d : Z) (e : Event) (l : list Event) :
  filter (fun x => date x =? d) (insert_by_date e l)
  = filter (fun x => date x =? d) (e :: l).
Proof.
  induction l as [|x l IH]; [reflexivity|].
  simpl insert_by_date.
  destruct (Z.leb_spec (date e) (date x)) as [Hle|Hgt]; [reflexivity|].
  cbn [filter] in IH |- *. rewrite IH.
  destruct (Z.eqb_spec (date e) d) as [He|He]; [|reflexivity].
  destruct (Z.eqb_spec (date x) d) as [Hx|Hx]; [lia|reflexivity].
Qed.

(** X11: the sort is stable: the events that share a date come out in the
    order in which they went in. *)
Theorem X11_sort_keeps_order_of_equal_dates (d : Z) (l : list Event) :
  filter (fun x => date x =? d) (sort_by_date l)
  = filter (fun x => date x =? d) l.
Proof.
  induction l as [|e l IH]; [reflexivity|].
  simpl sort_by_date. rewrite filter_date_insert.
  cbn [filter]. rewrite IH. reflexivity.
Qed.

Lemma map_throwing_app {A B} (f : nat -> A -> Result B) (pre : list A)
  (a : A) (post : list A) (e : JsError) :
  forall i,
  (forall n x, nth_error pre n = Some x -> exists b, f (i + n)%nat x = Ok b) ->
  f (i + List.length pre)%nat a = Throw e ->
  map_throwing f i (pre ++ a :: post) = Throw e.
Proof.
  induction pre as [|x pre IH]; intros i Hpre Ha; simpl.
  - rewrite Nat.add_0_r in Ha. rewrite Ha. reflexivity.
  - destruct (Hpre 0%nat x eq_refl) as [b Hb].
    rewrite Nat.add_0_r in Hb. rewrite Hb. simpl.
    rewrite (IH (S i)); [reflexivity| |].
    + intros n y Hn. destruct (Hpre (S n) y Hn) as [b' Hb'].
      exists b'. rewrite <- Hb'. f_equal. lia.
    + rewrite <- Ha. f_equal. simpl. lia.
Qed.

(** X12: the first record on which the callback throws decides the whole
    call: whatever the records before it (which the callback accepts) and
    after it, the batch ends with that exception and no list. *)
Theorem X12_first_exception_ends_batch (tz : Z) (lang : jsstring)
  (clock : nat -> Z) (pre : list Raw.RawRecord) (r : Raw.RawRecord)
  (post : list Raw.RawRecord) (e : JsError) :
  Forall containers_present pre ->
  normalize tz lang (clock (List.length pre)) r = Throw e ->
  events_of_records tz lang clock (pre ++ r :: post) = Throw e.
Proof.
  intros Hpre Hr. unfold events_of_records.
  rewrite (map_throwing_app _ pre r post e); [reflexivity| |exact Hr].
  intros n x Hn. apply normalize_total.
  rewrite Forall_forall in Hpre. apply Hpre. eapply nth_error_In, Hn.
Qed.

Lemma X12_first_exception_ends_batch_witness :
  events_of_records cet (lit "fr") (fun _ => wednesday_0900)
    ([concert; market] ++ without_venues :: [talk]) = Throw TypeError.
Proof.
  apply X12_first_exception_ends_batch.
  - repeat constructor; apply sample_windows_ok; simpl; auto.
  - vm_compute. reflexivity.
Defined.

(* ================================================================== *)
(** * Properties of the time ranges *)
(* ================================================================== *)

Lemma setHours_start (tz t : Z) :
  setHours tz t 0 0 0 0 = day_start tz (local_day tz t).
Proof. unfold setHours, day_start. lia. Qed.

Lemma setHours_end (tz t : Z) :
  setHours tz t 23 59 59 999 = day_end tz (local_day tz t).
Proof. unfold setHours, day_end, msPerHour, msPerMinute. lia. Qed.

Lemma local_day_day_start (tz n : Z) : local_day tz (day_start tz n) = n.
Proof.
  unfold local_day, day_start.
  replace (n * msPerDay - tz + tz) with (n * msPerDay) by lia.
  apply Z.div_mul. discriminate.
Qed.

Lemma getDate_local_day (tz a b : Z) :
  local_day tz a = local_day tz b -> getDate tz a = getDate tz b.
Proof. unfold getDate. intros ->. reflexivity. Qed.

Lemma getDay_local_day (tz a b : Z) :
  local_day tz a = local_day tz b -> getDay tz a = getDay tz b.
Proof. unfold getDay. intros ->. reflexivity. Qed.

Lemma local_day_setDate (tz t date : Z) :
  local_day tz (setDate tz t date) = local_day tz t + (date - getDate tz t).
Proof. unfold setDate. apply local_day_addDays. Qed.

Lemma within_local_day (tz t : Z) :
  day_start tz (local_day tz t) <= t <= day_end tz (local_day tz t).
Proof.
  unfold day_start, day_end, local_day.
  pose proof (Z.div_mod (t + tz) msPerDay) as H.
  pose proof (Z.mod_pos_bound (t + tz) msPerDay) as Hb.
  unfold msPerDay in *. lia.
Qed.



(** X14: under the same condition, [weekend] runs from the start of the
    first Saturday at or after today to the end of the Sunday that follows
    it; on a Sunday this is the weekend six days later, not the day in
    progress. *)
Theorem X14_weekend_range (tz now fromDate toDate : Z) :
  local_day tz fromDate = local_day tz now ->
  let D := local_day tz now in
  let S := D + (6 - getDay tz now) in
  time_range tz now fromDate toDate (lit "weekend")
    = (day_start tz S, day_end tz (S + 1))
  /\ D <= S <= D + 6
  /\ getDay tz (day_start tz S) = 6
  /\ (getDay tz now = 0 -> S = D + 6).
Proof.
  intros Hf D S.
  pose proof (getDate_local_day tz _ _ Hf) as Hgf.
  pose proof (getDay_range tz now) as Hg.
  assert (Hrem : Z.rem (6 - getDay tz now + 7) 7 = 6 - getDay tz now).
  { rewrite Z.rem_mod_nonneg by lia.
    assert (getDay tz now = 6 \/ getDay tz now < 6) as [->|Hlt] by lia.
    - reflexivity.
    - replace (6 - getDay tz now + 7) with (6 - getDay tz now + 1 * 7) by lia.
      rewrite Z.mod_add by discriminate. apply Z.mod_small. lia. }
  split; [|split; [|split]].
  - change (time_range tz now fromDate toDate (lit "weekend"))
      with (let daysUntilWeekend := Z.rem (6 - getDay tz now + 7) 7 in
            let f := setHours tz
                       (setDate tz fromDate (getDate tz now + daysUntilWeekend))
                       0 0 0 0 in
            (f, setHours tz (setDate tz f (getDate tz f + 1)) 23 59 59 999)).
    cbv zeta. rewrite Hrem.
    rewrite !setHours_start, setHours_end.
    repeat rewrite ?local_day_setDate, ?local_day_day_start.
    rewrite Hf, Hgf.
    unfold S, D. f_equal; f_equal; lia.
  - unfold S. lia.
  - unfold getDay at 1. rewrite local_day_day_start.
    unfold S, D, getDay.
    pose proof (Z.div_mod (local_day tz now + 4) 7) as Hdm.
    pose proof (Z.mod_pos_bound (local_day tz now + 4) 7) as Hb.
    replace (local_day tz now + (6 - (local_day tz now + 4) mod 7) + 4)
      with (6 + (local_day tz now + 4) / 7 * 7) by lia.
    rewrite Z.mod_add by discriminate. reflexivity.
  - intros H0. unfold S. lia.
Qed.

Lemma X14_weekend_range_witness :
  getDay cet (jan2025 26 9 0) = 0
  /\ time_range cet (jan2025 26 9 0) (jan2025 26 9 0) (jan2025 26 9 0)
       (lit "weekend")
     = (jan2025 32 0 0, jan2025 33 0 0 + 86399999).
Proof.
  split; [reflexivity|].
  destruct (X14_weekend_range cet (jan2025 26 9 0) (jan2025 26 9 0)
              (jan2025 26 9 0) eq_refl) as (H & _).
  rewrite H. vm_compute. reflexivity.
Defined.

(** X15: under the same condition, [next-week] starts seven days from
    today, and its end is computed from the day of the month of that
    start, set on a date still in the current month: when the start stays
    in the month of [now] the range is the seven days that follow it;
    when the start falls in the next month (its day of the month is
    smaller than today's), the end lies before the start. *)
Theorem X15_next_week_range (tz now fromDate toDate : Z) :
  local_day tz fromDate = local_day tz now ->
  local_day tz toDate = local_day tz now ->
  let D := local_day tz now in
  let g := getDate tz now in
  let g' := getDate tz (now + 7 * msPerDay) in
  time_range tz now fromDate toDate (lit "next-week")
    = (day_start tz (D + 7), day_end tz (D + 6 + g' - g))
  /\ (g' = g + 7 ->
      time_range tz now fromDate toDate (lit "next-week")
      = (day_start tz (D + 7), day_end tz (D + 13)))
  /\ (g' < g ->
      snd (time_range tz now fromDate toDate (lit "next-week"))
      < fst (time_range tz now fromDate toDate (lit "next-week"))).
Proof.
  intros Hf Ht D g g'.
  pose proof (getDate_local_day tz _ _ Hf) as Hgf.
  pose proof (getDate_local_day tz _ _ Ht) as Hgt.
  assert (H : time_range tz now fromDate toDate (lit "next-week")
              = (day_start tz (D + 7), day_end tz (D + 6 + g' - g))).
  { change (time_range tz now fromDate toDate (lit "next-week"))
      with (let f := setHours tz (setDate tz fromDate (getDate tz now + 7))
                       0 0 0 0 in
            (f, setHours tz (setDate tz toDate (getDate tz f + 6)) 23 59 59 999)).
    cbv zeta.
    rewrite !setHours_start, setHours_end, !local_day_setDate, Hf, Ht, Hgf, Hgt.
    replace (local_day tz now + (getDate tz now + 7 - getDate tz now))
      with (D + 7) by (unfold D; lia).
    assert (getDate tz (day_start tz (D + 7)) = g') as ->.
    { apply getDate_local_day.
      rewrite local_day_day_start, local_day_addDays. reflexivity. }
    f_equal. f_equal. unfold D, g. lia. }
  split; [exact H|]. split.
  - intros Hg. rewrite H, Hg. f_equal. f_equal. lia.
  - intros Hlt. rewrite H. simpl fst. simpl snd.
    unfold day_end, day_start, msPerDay. lia.
Qed.

Lemma X15_next_week_range_witness :
  getDate cet (jan2025 28 9 0 + 7 * msPerDay) = 4
  /\ getDate cet (jan2025 28 9 0) = 28
  /\ snd (time_range cet (jan2025 28 9 0) (jan2025 28 9 0) (jan2025 28 9 0)
            (lit "next-week"))
     < fst (time_range cet (jan2025 28 9 0) (jan2025 28 9 0) (jan2025 28 9 0)
              (lit "next-week")).
Proof.
  split; [reflexivity|]. split; [reflexivity|].
  destruct (X15_next_week_range cet (jan2025 28 9 0) (jan2025 28 9 0)
              (jan2025 28 9 0) eq_refl eq_refl) as (_ & _ & H).
  apply H. vm_compute. reflexivity.
Defined.

(* ================================================================== *)
(** * Properties of the request parameters *)
(* ================================================================== *)

Lemma append_entry_key (ignore : list jsstring) (key : jsstring)
  (value : QueryValue) (k v : jsstring) :
  In (k, v) (append_entry ignore (key, value)) ->
  k = key /\ includes ignore key = false.
Proof.
  unfold append_entry.
  destruct (includes ignore key); [intros []|].
  intros H. split; [|reflexivity].
  destruct value as [s| |vs].
  - destruct (startsWith s (lit "[") && endsWith s (lit "]")).
    + apply in_map_iff in H as (x & Hx & _). congruence.
    + destruct H as [H|[]]. congruence.
  - destruct H as [H|[]]. congruence.
  - apply in_map_iff in H as (x & Hx & _). congruence.
Qed.

Lemma passthrough_key (ignore : list jsstring) (query : JsObject QueryValue)
  (k v : jsstring) :
  In (k, v) (passthrough ignore query) ->
  includes ignore k = false /\ exists value, In (k, value) query.
Proof.
  unfold passthrough. intros H.
  apply in_flat_map in H as ([key value] & Hq & H).
  apply append_entry_key in H as [-> Hi]. eauto.
Qed.

Lemma split_on_not_nil (sep : N) (s : jsstring) : split_on sep s <> [].
Proof.
  destruct s as [|c r]; simpl; [discriminate|].
  destruct (N.eqb c sep); [discriminate|].
  destruct (split_on sep r); discriminate.
Qed.

Lemma request_params_cases (tz now fromDate toDate : Z) (ignore : list jsstring)
  (query : JsObject QueryValue) (ps : list (jsstring * jsstring)) :
  request_params tz now fromDate toDate ignore query = Ok ps ->
  ps = passthrough ignore query
  \/ exists f t, ps = [(lit "date[from]", f); (lit "date[to]", t)]
                      ++ passthrough ignore query.
Proof.
  unfold request_params.
  destruct (get query (lit "timeRange")) as [[[|c r]| |vs]|];
    try (intros H; injection H as <-; left; reflexivity);
    [|discriminate].
  destruct (time_range tz now fromDate toDate (c :: r)) as [f t].
  intros H. injection H as <-. right.
  exists (iso_seconds f), (iso_seconds t). reflexivity.
Qed.

(** X16: with the ignore list of either file, no parameter of the request
    carries an ignored key: the API key, the time range, the interval
    never reach the query string; and every other string entry of the page
    query is passed on under its own key. *)
Theorem X16_ignored_keys_are_not_sent (tz now fromDate toDate : Z)
  (ignore : list jsstring) (query : JsObject QueryValue)
  (ps : list (jsstring * jsstring)) :
  ignore = toIgnore \/ ignore = toIgnore_app ->
  request_params tz now fromDate toDate ignore query = Ok ps ->
  (forall k v, In (k, v) ps ->
     includes ignore k = false /\ k <> lit "api-key"
     /\ k <> lit "timeRange" /\ k <> lit "interval")
  /\ (forall key s, In (key, QString s) query -> includes ignore key = false ->
      exists v, In (key, v) ps).
Proof.
  intros Hig Hps.
  assert (Hkeys : forall k v, In (k, v) ps -> includes ignore k = false).
  { intros k v Hin.
    destruct (request_params_cases _ _ _ _ _ _ _ Hps) as [->|(f & t & ->)].
    - apply passthrough_key in Hin. tauto.
    - destruct Hin as [H|[H|Hin]].
      + injection H as <- _. destruct Hig as [->| ->]; reflexivity.
      + injection H as <- _. destruct Hig as [->| ->]; reflexivity.
      + apply passthrough_key in Hin. tauto. }
  split.
  - intros k v Hin. specialize (Hkeys k v Hin).
    split; [exact Hkeys|].
    repeat split; intros ->; destruct Hig as [->| ->]; discriminate.
  - intros key s Hq Hi.
    assert (exists v, In (key, v) (passthrough ignore query)) as [v Hv].
    { assert (exists v, In (key, v) (append_entry ignore (key, QString s)))
        as [v Hv].
      { unfold append_entry. rewrite Hi.
        destruct (startsWith s (lit "[") && endsWith s (lit "]")).
        - destruct (split_on 44 (removelast (tl s))) as [|x l] eqn:E.
          + exfalso. eapply split_on_not_nil, E.
          + exists (trim x). left. reflexivity.
        - exists s. left. reflexivity. }
      exists v. unfold passthrough. apply in_flat_map.
      exists (key, QString s). auto. }
    exists v.
    destruct (request_params_cases _ _ _ _ _ _ _ Hps) as [->|(f & t & ->)];
      [exact Hv|right; right; exact Hv].
Qed.

Lemma X16_ignored_keys_are_not_sent_witness :
  exists ps,
    request_params cet wednesday_0900 wednesday_0900 wednesday_0900 toIgnore
      [(lit "api-key", QString (lit "secret"));
       (lit "timeRange", QString (lit "[week]"));
       (lit "category", QString (lit "[music, theatre]"))] = Ok ps
    /\ map fst ps = [lit "date[from]"; lit "date[to]"; lit "category"; lit "category"]
    /\ (forall k v, In (k, v) ps -> k <> lit "api-key").
Proof.
  destruct (request_params cet wednesday_0900 wednesday_0900 wednesday_0900
              toIgnore
              [(lit "api-key", QString (lit "secret"));
               (lit "timeRange", QString (lit "[week]"));
               (lit "category", QString (lit "[music, theatre]"))])
    as [ps|err] eqn:H; [|vm_compute in H; discriminate].
  exists ps. split; [reflexivity|].
  destruct (X16_ignored_keys_are_not_sent _ _ _ _ _ _ _ (or_introl eq_refl) H)
    as [Hk _].
  split; [|intros k v Hin; apply (Hk k v Hin)].
  vm_compute in H. injection H as <-. reflexivity.
Defined.

Lemma startsWith_nil (s : jsstring) : startsWith s [] = true.
Proof. destruct s; reflexivity. Qed.

Lemma split_on_length (sep : N) (s : jsstring) :
  List.length (split_on sep s) = S (count_occ N.eq_dec s sep).
Proof.
  induction s as [|c r IH]; [reflexivity|].
  simpl split_on. simpl count_occ.
  destruct (N.eqb_spec c sep) as [->|Hne].
  - destruct (N.eq_dec sep sep); [|contradiction]. simpl. rewrite IH. reflexivity.
  - destruct (N.eq_dec c sep); [contradiction|].
    destruct (split_on sep r) as [|h t]; [discriminate IH|exact IH].
Qed.

Lemma split_on_free (sep : N) (s : jsstring) :
  Forall (fun v => ~ In sep v) (split_on sep s).
Proof.
  induction s as [|c r IH]; simpl.
  - repeat constructor. intros [].
  - destruct (N.eqb_spec c sep) as [->|Hne].
    + constructor; [intros []|exact IH].
    + destruct (split_on sep r) as [|h t].
      * repeat constructor. intros [H|[]]. contradiction.
      * inversion IH as [|? ? Hh Ht]; subst.
        constructor; [|exact Ht].
        intros [H|H]; [contradiction|]. apply Hh, H.
Qed.

Lemma trimStart_spec (s : jsstring) :
  exists p, s = p ++ trimStart s
            /\ Forall (fun c => is_space c = true) p
            /\ (trimStart s = [] \/ is_space (hd 0%N (trimStart s)) = false).
Proof.
  induction s as [|c r IH].
  - exists []. repeat split; auto.
  - simpl trimStart. destruct (is_space c) eqn:Hc.
    + destruct IH as (p & Hp & Hsp & Hhd).
      exists (c :: p). split; [simpl; congruence|]. split; [constructor; auto|exact Hhd].
    + exists []. repeat split; auto.
Qed.

(** [trim] removes a run of white space at each end and nothing else. *)
Lemma trim_spec (s : jsstring) :
  trimmed (trim s)
  /\ exists p q, s = p ++ trim s ++ q
                 /\ Forall (fun c => is_space c = true) p
                 /\ Forall (fun c => is_space c = true) q.
Proof.
  unfold trim.
  destruct (trimStart_spec s) as (p & Hp & Hsp & Ha).
  destruct (trimStart_spec (rev (trimStart s))) as (q & Hq & Hsq & Hb).
  set (a := trimStart s) in *. set (b := trimStart (rev a)) in *.
  assert (Ha' : a = rev b ++ rev q).
  { rewrite <- rev_app_distr, <- Hq. symmetry. apply rev_involutive. }
  split.
  - unfold trimmed. destruct b as [|x b'] eqn:Eb; [left; reflexivity|].
    right. destruct Hb as [Hb|Hb]; [discriminate|]. simpl in Hb.
    split.
    + destruct Ha as [Ha|Ha].
      * rewrite Ha in Ha'. destruct (rev (x :: b')) eqn:E; [|discriminate].
        apply (f_equal (@List.length N)) in E.
        rewrite length_rev in E. discriminate.
      * rewrite Ha' in Ha.
        destruct (rev (x :: b')) as [|y l] eqn:E; [|exact Ha].
        apply (f_equal (@List.length N)) in E.
        rewrite length_rev in E. discriminate.
    + simpl rev. rewrite last_last. exact Hb.
  - exists p, (rev q). split; [rewrite <- Ha'; exact Hp|].
    split; [exact Hsp|]. apply Forall_rev. exact Hsq.
Qed.

(** X17: a value written [[a,b,...]] is sent as one parameter per item:
    as many as there are commas plus one (a single empty one for [[]]),
    each item free of commas and with the white space at its ends
    removed. *)
Theorem X17_bracket_list_expansion (ignore : list jsstring)
  (key body : jsstring) :
  includes ignore key = false ->
  let values := split_on 44 body in
  append_entry ignore (key, QString (lit "[" ++ body ++ lit "]"))
    = map (fun v => (key, trim v)) values
  /\ List.length values = S (count_occ N.eq_dec body 44%N)
  /\ Forall (fun v => ~ In 44%N v) values
  /\ Forall (fun v => trimmed (trim v) /\ ~ In 44%N (trim v)) values.
Proof.
  intros Hi values.
  split; [|split; [|split]].
  - unfold append_entry. rewrite Hi.
    assert (startsWith (lit "[" ++ body ++ lit "]") (lit "[") = true) as ->
      by (simpl; apply startsWith_nil).
    assert (endsWith (lit "[" ++ body ++ lit "]") (lit "]") = true) as ->.
    { unfold endsWith. rewrite !rev_app_distr. simpl. apply startsWith_nil. }
    simpl andb. cbv iota.
    change (tl (lit "[" ++ body ++ lit "]")) with (body ++ [93%N]).
    rewrite removelast_last. reflexivity.
  - apply split_on_length.
  - apply split_on_free.
  - eapply Forall_impl; [|apply (split_on_free 44 body)].
    intros v Hv. destruct (trim_spec v) as (Ht & p & q & Hpq & _).
    split; [exact Ht|].
    intros Hin. apply Hv. rewrite Hpq.
    apply in_or_app. right. apply in_or_app. left. exact Hin.
Qed.

Lemma X17_bracket_list_expansion_witness :
  append_entry toIgnore (lit "category", QString (lit "[music,  theatre ,]"))
  = [(lit "category", lit "music"); (lit "category", lit "theatre");
     (lit "category", [])].
Proof.
  destruct (X17_bracket_list_expansion toIgnore (lit "category")
              (lit "music,  theatre ,") eq_refl) as (H & _).
  etransitivity; [exact H|]. vm_compute. reflexivity.
Defined.

(* ================================================================== *)
(** * Properties of the carousel *)
(* ================================================================== *)

Lemma js_rem_nonneg (x : Z) (n : nat) :
  (0 < n)%nat -> 0 <= x ->
  js_rem (Some x) n = Some (x mod Z.of_nat n)
  /\ 0 <= x mod Z.of_nat n < Z.of_nat n.
Proof.
  intros Hn Hx. destruct n as [|k]; [lia|].
  unfold js_rem. rewrite Z.rem_mod_nonneg by lia.
  split; [reflexivity|apply Z.mod_pos_bound; lia].
Qed.

Lemma nextEvent_valid {A} (events : list A) (i : Z) :
  0 <= i < Z.of_nat (List.length events) ->
  nextEvent events (Some i) = Some ((i + 1) mod Z.of_nat (List.length events)).
Proof.
  intros Hi. unfold nextEvent. simpl js_add.
  apply js_rem_nonneg; lia.
Qed.

Lemma previousEvent_valid {A} (events : list A) (i : Z) :
  0 <= i < Z.of_nat (List.length events) ->
  previousEvent events (Some i)
  = Some ((i - 1) mod Z.of_nat (List.length events)).
Proof.
  intros Hi. unfold previousEvent. simpl js_add.
  destruct (js_rem_nonneg (i + -1 + Z.of_nat (List.length events))
              (List.length events)) as [-> _]; [lia|lia|].
  f_equal.
  replace (i + -1 + Z.of_nat (List.length events))
    with (i - 1 + 1 * Z.of_nat (List.length events)) by lia.
  apply Z.mod_add. lia.
Qed.

Lemma press_next_valid {A} (events : list A) (k : nat) :
  forall i, 0 <= i < Z.of_nat (List.length events) ->
  press_next k events (Some i)
  = Some ((i + Z.of_nat k) mod Z.of_nat (List.length events)).
Proof.
  induction k as [|k IH]; intros i Hi.
  - simpl. rewrite Z.add_0_r, Z.mod_small by lia. reflexivity.
  - cbn [press_next]. rewrite nextEvent_valid by exact Hi.
    rewrite IH by (apply Z.mod_pos_bound; lia).
    rewrite Zplus_mod_idemp_l. f_equal. f_equal. lia.
Qed.

(** X18: with a non-empty list and an index from 0 to length - 1, an
    event is displayed; [nextEvent] and [previousEvent] keep the index in
    that range, wrap around at both ends, undo each other, and as many
    [nextEvent] as there are events come back to the same one. *)
Theorem X18_carousel_cycles {A} (events : list A) (i : Z) :
  0 <= i < Z.of_nat (List.length events) ->
  let n := Z.of_nat (List.length events) in
  nextEvent events (Some i) = Some (if i + 1 =? n then 0 else i + 1)
  /\ previousEvent events (Some i) = Some (if i =? 0 then n - 1 else i - 1)
  /\ previousEvent events (nextEvent events (Some i)) = Some i
  /\ nextEvent events (previousEvent events (Some i)) = Some i
  /\ press_next (List.length events) events (Some i) = Some i
  /\ exists e, currentEvent events (Some i) = Some e
               /\ nth_error events (Z.to_nat i) = Some e.
Proof.
  intros Hi n.
  assert (Hnext : nextEvent events (Some i)
                  = Some (if i + 1 =? n then 0 else i + 1)).
  { rewrite nextEvent_valid by exact Hi. f_equal. fold n.
    destruct (Z.eqb_spec (i + 1) n) as [->|Hne].
    - apply Z.mod_same. lia.
    - apply Z.mod_small. lia. }
  assert (Hprev : previousEvent events (Some i)
                  = Some (if i =? 0 then n - 1 else i - 1)).
  { rewrite previousEvent_valid by exact Hi. f_equal. fold n.
    destruct (Z.eqb_spec i 0) as [->|Hne].
    - replace (0 - 1) with (n - 1 + -1 * n) by lia.
      rewrite Z.mod_add by lia. apply Z.mod_small. lia.
    - apply Z.mod_small. lia. }
  split; [exact Hnext|]. split; [exact Hprev|].
  split; [|split; [|split]].
  - rewrite Hnext. destruct (Z.eqb_spec (i + 1) n) as [He|Hne].
    + rewrite previousEvent_valid by (fold n; lia). f_equal. fold n.
      replace (0 - 1) with (n - 1 + -1 * n) by lia.
      rewrite Z.mod_add by lia. rewrite Z.mod_small by lia. lia.
    + rewrite previousEvent_valid by (fold n; lia). f_equal. fold n.
      rewrite Z.mod_small by lia. lia.
  - rewrite Hprev. destruct (Z.eqb_spec i 0) as [->|Hne].
    + rewrite nextEvent_valid by (fold n; lia). f_equal. fold n.
      replace (n - 1 + 1) with n by lia. apply Z.mod_same. lia.
    + rewrite nextEvent_valid by (fold n; lia). f_equal. fold n.
      rewrite Z.mod_small by lia. lia.
  - rewrite press_next_valid by exact Hi. f_equal. fold n.
    replace (i + n) with (i + 1 * n) by lia.
    rewrite Z.mod_add by lia. apply Z.mod_small. lia.
  - unfold currentEvent.
    destruct (js_rem_nonneg i (List.length events)) as [-> _]; [lia|lia|].
    fold n. rewrite Z.mod_small by lia.
    unfold at_index. destruct (Z.ltb_spec i 0); [lia|].
    destruct (nth_error events (Z.to_nat i)) as [e|] eqn:E; [eauto|].
    apply nth_error_None in E. lia.
Qed.

Lemma X18_carousel_cycles_witness :
  nextEvent [concert; market; talk] (Some 2) = Some 0
  /\ previousEvent [concert; market; talk] (Some 0) = Some 2
  /\ currentEvent [concert; market; talk] (Some 2) = Some talk.
Proof.
  destruct (X18_carousel_cycles [concert; market; talk] 2)
    as (Hn & _ & _ & _ & _ & e & He & Hnth); [simpl; lia|].
  destruct (X18_carousel_cycles [concert; market; talk] 0)
    as (_ & Hp & _); [simpl; lia|].
  split; [exact Hn|]. split; [exact Hp|].
  rewrite He. simpl in Hnth. exact (eq_sym Hnth).
Defined.

Lemma run_keys_NaN {A} (steps : list (list A * Key)) :
  run_keys steps None = None.
Proof.
  induction steps as [|[events k] rest IH]; [reflexivity|].
  simpl. destruct k; exact IH.
Qed.

(** X19: the index does not recover from an empty list: one [nextEvent]
    or [previousEvent] while there is no event (the state before the
    answer of the API arrives, or when it is empty) makes the index NaN,
    as does a [currentIndex] parameter that is not a number; after that,
    whatever keys and timer ticks follow and whatever list arrives, no
    event is displayed. *)
Theorem X19_empty_list_blanks_the_display {A} (events : list A)
  (steps : list (list A * Key)) (i : JsNumber) (q : jsstring) :
  currentEvent events (run_keys steps (nextEvent (@nil A) i)) = None
  /\ currentEvent events (run_keys steps (previousEvent (@nil A) i)) = None
  /\ (q <> [] -> parseInt q = None ->
      currentEvent events (run_keys steps (initial_index (Some q))) = None).
Proof.
  assert (Hnan : currentEvent events (run_keys steps None) = None)
    by (rewrite run_keys_NaN; reflexivity).
  split; [|split].
  - destruct i; exact Hnan.
  - destruct i; exact Hnan.
  - intros Hq Hp. destruct q as [|c r]; [congruence|].
    simpl initial_index. rewrite Hp. exact Hnan.
Qed.

Lemma X19_empty_list_blanks_the_display_witness :
  currentEvent [concert; market]
    (run_keys [([concert; market], ArrowRight); ([concert; market], ArrowLeft)]
       (initial_index (Some (lit "first")))) = None.
Proof.
  apply (X19_empty_list_blanks_the_display [concert; market] _ None (lit "first")).
  - discriminate.
  - reflexivity.
Defined.

(** X20: with a non-empty list, every index that is not negative shows an
    event (the index taken modulo the length), while a negative index
    that is not a multiple of the length shows none. *)
Theorem X20_index_out_of_range {A} (events : list A) (i : Z) :
  events <> [] ->
  let n := Z.of_nat (List.length events) in
  (0 <= i ->
   exists e, currentEvent events (Some i) = Some e
             /\ nth_error events (Z.to_nat (i mod n)) = Some e)
  /\ (i < 0 -> Z.rem i n <> 0 -> currentEvent events (Some i) = None).
Proof.
  intros Hne n.
  assert (Hn : (0 < List.length events)%nat)
    by (destruct events; [congruence|simpl; lia]).
  split.
  - intros Hi. unfold currentEvent.
    destruct (js_rem_nonneg i (List.length events) Hn Hi) as [-> Hb].
    fold n in Hb |- *.
    unfold at_index. destruct (Z.ltb_spec (i mod n) 0); [lia|].
    destruct (nth_error events (Z.to_nat (i mod n))) as [e|] eqn:E; [eauto|].
    apply nth_error_None in E. lia.
  - intros Hi Hrem. unfold currentEvent, js_rem.
    destruct (List.length events) as [|k] eqn:El; [lia|].
    fold n. unfold at_index.
    pose proof (Z.rem_nonpos i n ltac:(lia) ltac:(lia)) as Hle.
    destruct (Z.ltb_spec (Z.rem i n) 0); [reflexivity|lia].
Qed.

Lemma X20_index_out_of_range_witness :
  currentEvent [concert; market; talk] (initial_index (Some (lit "7")))
    = Some market
  /\ currentEvent [concert; market; talk] (initial_index (Some (lit "-1")))
     = None.
Proof.
  destruct (X20_index_out_of_range [concert; market; talk] 7)
    as [Hpos _]; [discriminate|].
  destruct (X20_index_out_of_range [concert; market; talk] (-1))
    as [_ Hneg]; [discriminate|].
  split.
  - destruct (Hpos ltac:(lia)) as (e & He & Hnth).
    change (initial_index (Some (lit "7"))) with (Some 7).
    rewrite He. simpl in Hnth. exact (eq_sym Hnth).
  - change (initial_index (Some (lit "-1"))) with (Some (-1)).
    apply Hneg; [lia|vm_compute; discriminate].
Defined.

(* ================================================================== *)
(** * The calendar and the [month] range *)
(* ================================================================== *)

Lemma yoe_exact (doe : Z) :
  0 <= doe < 146097 ->
  let yoe := (doe - doe / 1460 + doe / 36524 - doe / 146096) / 365 in
  0 <= yoe <= 399
  /\ start_of_year yoe <= doe
  /\ (yoe < 399 -> doe < start_of_year (yoe + 1))
  /\ (yoe = 399 -> doe <= start_of_year yoe + 365).
Proof. intros H yoe. subst yoe. unfold start_of_year. euclid. Qed.

Lemma yoe_of_parts (yoe doy : Z) :
  0 <= yoe <= 399 -> 0 <= doy ->
  (yoe < 399 -> start_of_year yoe + doy < start_of_year (yoe + 1)) ->
  (yoe = 399 -> doy <= 365) ->
  let doe := start_of_year yoe + doy in
  (doe - doe / 1460 + doe / 36524 - doe / 146096) / 365 = yoe.
Proof. intros H1 H2 H3 H4 doe. subst doe. unfold start_of_year in *. euclid. Qed.

Lemma civil_from_days_of (z : Z) :
  civil_from_days z
  = civil_of ((z + 719468) / 146097)
      (z + 719468 - (z + 719468) / 146097 * 146097).
Proof. reflexivity. Qed.

Lemma civil_parts (era doe : Z) :
  0 <= doe < 146097 ->
  civil_from_days (era * 146097 + doe - 719468) = civil_of era doe.
Proof.
  intros H. rewrite civil_from_days_of.
  replace (era * 146097 + doe - 719468 + 719468) with (doe + era * 146097) by lia.
  rewrite Z.div_add by discriminate. rewrite Z.div_small by lia.
  f_equal. lia.
Qed.

Lemma day_parts (z : Z) :
  exists era doe, 0 <= doe < 146097 /\ z = era * 146097 + doe - 719468.
Proof.
  exists ((z + 719468) / 146097), ((z + 719468) mod 146097).
  pose proof (Z.div_mod (z + 719468) 146097).
  pose proof (Z.mod_pos_bound (z + 719468) 146097). lia.
Qed.

Lemma civil_of_year (era yoe doy : Z) :
  0 <= yoe <= 399 -> 0 <= doy ->
  (yoe < 399 -> start_of_year yoe + doy < start_of_year (yoe + 1)) ->
  (yoe = 399 -> doy <= 365) ->
  civil_of era (start_of_year yoe + doy)
  = (yoe + era * 400 + (if month_of ((5 * doy + 2) / 153) <=? 2 then 1 else 0),
     month_of ((5 * doy + 2) / 153),
     doy - (153 * ((5 * doy + 2) / 153) + 2) / 5 + 1).
Proof.
  intros H1 H2 H3 H4. unfold civil_of. cbv zeta.
  rewrite (yoe_of_parts yoe doy H1 H2 H3 H4).
  replace (start_of_year yoe + doy - (365 * yoe + yoe / 4 - yoe / 100))
    with doy by (unfold start_of_year; lia).
  reflexivity.
Qed.

Lemma days_from_civil_parts (y m d : Z) :
  days_from_civil y m d
  = (let y' := if m <=? 2 then y - 1 else y in
     y' / 400 * 146097 + start_of_year (y' - y' / 400 * 400)
       + (153 * (if 2 <? m then m - 3 else m + 9) + 2) / 5 + d - 1 - 719468).
Proof. unfold days_from_civil, start_of_year. cbv zeta. lia. Qed.

Lemma year_length (yoe : Z) :
  0 <= yoe < 399 ->
  start_of_year (yoe + 1) - start_of_year yoe = 365
  \/ start_of_year (yoe + 1) - start_of_year yoe = 366.
Proof. unfold start_of_year. intros. euclid. Qed.

Lemma start_bound (yoe : Z) :
  0 <= yoe <= 399 ->
  0 <= start_of_year yoe /\ start_of_year yoe + 365 <= 146096.
Proof. unfold start_of_year. intros. euclid. Qed.

Lemma era_of_year (era yoe : Z) :
  0 <= yoe <= 399 ->
  (yoe + era * 400) / 400 = era
  /\ yoe + era * 400 - (yoe + era * 400) / 400 * 400 = yoe.
Proof.
  intros H. rewrite Z.div_add by discriminate.
  rewrite Z.div_small by lia. lia.
Qed.

(** Day number of a date given by era, year of the era and month counted
    from March. *)
Lemma days_in_era (era yoe mp d : Z) :
  0 <= yoe <= 399 -> 0 <= mp <= 11 ->
  days_from_civil (yoe + era * 400 + (if month_of mp <=? 2 then 1 else 0))
    (month_of mp) d
  = era * 146097 + (start_of_year yoe + (153 * mp + 2) / 5) + d - 1 - 719468.
Proof.
  intros Hy Hmp. rewrite days_from_civil_parts. cbv zeta.
  destruct (era_of_year era yoe Hy) as [He Hyo].
  unfold month_of. destruct (Z.ltb_spec mp 10) as [Hlt|Hge].
  - destruct (Z.leb_spec (mp + 3) 2); [lia|].
    destruct (Z.ltb_spec 2 (mp + 3)); [|lia].
    replace (yoe + era * 400 + 0) with (yoe + era * 400) by lia.
    rewrite He. replace (yoe + era * 400 - era * 400) with yoe by lia.
    replace (mp + 3 - 3) with mp by lia. lia.
  - destruct (Z.leb_spec (mp - 9) 2); [|lia].
    destruct (Z.ltb_spec 2 (mp - 9)); [lia|].
    replace (yoe + era * 400 + 1 - 1) with (yoe + era * 400) by lia.
    rewrite He. replace (yoe + era * 400 - era * 400) with yoe by lia.
    replace (mp - 9 + 9) with mp by lia. lia.
Qed.

(** The month that follows, in the same terms. *)
Lemma next_month (yoe' era mp : Z) :
  0 <= mp <= 10 ->
  let m := month_of mp in
  yoe' + era * 400 + (if m <=? 2 then 1 else 0) + m / 12
  = yoe' + era * 400 + (if month_of (mp + 1) <=? 2 then 1 else 0)
  /\ m mod 12 + 1 = month_of (mp + 1).
Proof.
  intros Hmp. cbv zeta.
  assert (Hcase : mp = 0 \/ mp = 1 \/ mp = 2 \/ mp = 3 \/ mp = 4 \/ mp = 5
                \/ mp = 6 \/ mp = 7 \/ mp = 8 \/ mp = 9 \/ mp = 10) by lia.
  repeat (destruct Hcase as [->|Hcase]; [split; [vm_compute (month_of _); vm_compute (_ <=? 2); vm_compute (_ / 12); cbv iota; lia|reflexivity]|]).
  subst mp. split; [vm_compute (month_of _); vm_compute (_ <=? 2); vm_compute (_ / 12); cbv iota; lia|reflexivity].
Qed.

Lemma next_first (era yoe mp : Z) :
  0 <= yoe <= 399 -> 0 <= mp <= 11 ->
  let y := yoe + era * 400 + (if month_of mp <=? 2 then 1 else 0) in
  let m := month_of mp in
  days_from_civil (y + m / 12) (m mod 12 + 1) 1
  = if mp <? 11
    then era * 146097 + (start_of_year yoe + (153 * (mp + 1) + 2) / 5) - 719468
    else if yoe <? 399
         then era * 146097 + (start_of_year (yoe + 1) + 0) - 719468
         else (era + 1) * 146097 + (start_of_year 0 + 0) - 719468.
Proof.
  intros Hy Hmp. cbv zeta.
  destruct (Z.ltb_spec mp 11) as [Hlt|Hge].
  - destruct (next_month yoe era mp ltac:(lia)) as [-> ->].
    rewrite days_in_era by lia. lia.
  - assert (mp = 11) as -> by lia.
    change (month_of 11) with 2. change (2 <=? 2) with true. cbv iota.
    change (2 / 12) with 0. change (2 mod 12 + 1) with (month_of 0).
    destruct (Z.ltb_spec yoe 399) as [Hy'|Hy'].
    + replace (yoe + era * 400 + 1 + 0)
        with (yoe + 1 + era * 400 + (if month_of 0 <=? 2 then 1 else 0))
        by (change (month_of 0 <=? 2) with false; cbv iota; lia).
      rewrite days_in_era by lia. change ((153 * 0 + 2) / 5) with 0. lia.
    + replace (yoe + era * 400 + 1 + 0)
        with (0 + (era + 1) * 400 + (if month_of 0 <=? 2 then 1 else 0))
        by (change (month_of 0 <=? 2) with false; cbv iota; lia).
      rewrite days_in_era by lia. change ((153 * 0 + 2) / 5) with 0. lia.
Qed.

(** The civil date of a day given by era, year of the era and day of the
    year counted from 1 March. *)
Lemma civil_in_era (era yoe doy : Z) :
  0 <= yoe <= 399 -> 0 <= doy ->
  (yoe < 399 -> start_of_year yoe + doy < start_of_year (yoe + 1)) ->
  (yoe = 399 -> doy <= 365) ->
  civil_from_days (era * 146097 + (start_of_year yoe + doy) - 719468)
  = (yoe + era * 400 + (if month_of ((5 * doy + 2) / 153) <=? 2 then 1 else 0),
     month_of ((5 * doy + 2) / 153),
     doy - (153 * ((5 * doy + 2) / 153) + 2) / 5 + 1).
Proof.
  intros Hy Hd H3 H4.
  pose proof (start_bound yoe Hy) as [Hs0 Hs1].
  rewrite civil_parts.
  - apply civil_of_year; assumption.
  - split; [lia|].
    destruct (Z.eq_dec yoe 399) as [He|Hn]; [specialize (H4 He); lia|].
    specialize (H3 ltac:(lia)).
    pose proof (start_bound (yoe + 1) ltac:(lia)). lia.
Qed.

(** Facts about the month of day [z]: the day number of the first of the
    next month, and the month before it. *)
Lemma month_end_facts (z : Z) :
  let '(y, m, _) := civil_from_days z in
  let E := days_from_civil (y + m / 12) (m mod 12 + 1) 1 - 1 in
  z <= E
  /\ (let '(y2, m2, _) := civil_from_days E in y2 = y /\ m2 = m)
  /\ (let '(_, _, d3) := civil_from_days (E + 1) in d3 = 1).
Proof.
  destruct (day_parts z) as (era & doe & Hdoe & ->).
  destruct (yoe_exact doe Hdoe) as (Hyoe & Hlo & Hhi & Hlast).
  set (yoe := (doe - doe / 1460 + doe / 36524 - doe / 146096) / 365) in *.
  clearbody yoe.
  set (doy := doe - start_of_year yoe).
  assert (Hdoy : 0 <= doy) by (unfold doy; lia).
  assert (H3 : yoe < 399 -> start_of_year yoe + doy < start_of_year (yoe + 1))
    by (unfold doy; intros Hlt; specialize (Hhi Hlt); lia).
  assert (H4 : yoe = 399 -> doy <= 365)
    by (unfold doy; intros He; specialize (Hlast He); lia).
  replace doe with (start_of_year yoe + doy) by (unfold doy; lia).
  clearbody doy. clear Hlo Hhi Hlast Hdoe doe.
  rewrite (civil_in_era era yoe doy Hyoe Hdoy H3 H4).
  assert (Hlen : doy <= 365).
  { destruct (Z.eq_dec yoe 399) as [He|Hn]; [auto|].
    pose proof (year_length yoe ltac:(lia)). specialize (H3 ltac:(lia)). lia. }
  assert (Hmpdef : exists mp, mp = (5 * doy + 2) / 153) by eauto.
  destruct Hmpdef as [mp Hmpdef]. rewrite <- Hmpdef.
  assert (Hmp : 0 <= mp <= 11) by euclid.
  cbv zeta. rewrite (next_first era yoe mp Hyoe Hmp).
  pose proof (start_bound yoe Hyoe) as [Hs0 Hs1].
  destruct (Z.ltb_spec mp 11) as [Hlt|Hge].
  - (* the next month starts in the same March-based year *)
    set (K := (153 * (mp + 1) + 2) / 5).
    assert (HK : doy < K /\ 1 <= K <= 337 /\ (5 * K + 2) / 153 = mp + 1
                 /\ (5 * (K - 1) + 2) / 153 = mp) by (unfold K; euclid).
    destruct HK as (HdK & HKb & HK1 & HK0).
    assert (HinK : forall k, 0 <= k <= 337 ->
              (yoe < 399 -> start_of_year yoe + k < start_of_year (yoe + 1))
              /\ (yoe = 399 -> k <= 365)).
    { intros k Hk. split; [|lia].
      intros Hy'. pose proof (year_length yoe ltac:(lia)). lia. }
    replace (era * 146097 + (start_of_year yoe + K) - 719468 - 1)
      with (era * 146097 + (start_of_year yoe + (K - 1)) - 719468) by lia.
    replace (era * 146097 + (start_of_year yoe + (K - 1)) - 719468 + 1)
      with (era * 146097 + (start_of_year yoe + K) - 719468) by lia.
    destruct (HinK K ltac:(lia)) as [Ha Hb].
    destruct (HinK (K - 1) ltac:(lia)) as [Ha' Hb'].
    rewrite (civil_in_era era yoe K Hyoe ltac:(lia) Ha Hb).
    rewrite (civil_in_era era yoe (K - 1) Hyoe ltac:(lia) Ha' Hb').
    rewrite HK1, HK0.
    split; [lia|]. split; [split; reflexivity|]. unfold K. lia.
  - assert (Hm11 : mp = 11) by lia. rewrite Hm11 in Hmpdef |- *. clear Hm11.
    destruct (Z.ltb_spec yoe 399) as [Hy'|Hy'].
    + pose proof (year_length yoe ltac:(lia)) as HL.
      set (L := start_of_year (yoe + 1) - start_of_year yoe) in *.
      assert (HL0 : (5 * (L - 1) + 2) / 153 = 11) by (destruct HL as [-> | ->]; reflexivity).
      replace (era * 146097 + (start_of_year (yoe + 1) + 0) - 719468 - 1)
        with (era * 146097 + (start_of_year yoe + (L - 1)) - 719468)
        by (unfold L; lia).
      replace (era * 146097 + (start_of_year yoe + (L - 1)) - 719468 + 1)
        with (era * 146097 + (start_of_year (yoe + 1) + 0) - 719468)
        by (unfold L; lia).
      rewrite (civil_in_era era yoe (L - 1) Hyoe ltac:(lia)
                 ltac:(unfold L; lia) ltac:(lia)).
      assert (Hnext : (yoe + 1 < 399 ->
                       start_of_year (yoe + 1) + 0 < start_of_year (yoe + 1 + 1))
                      /\ (yoe + 1 = 399 -> 0 <= 365)).
      { split; [|lia]. intros Hn. pose proof (year_length (yoe + 1) ltac:(lia)). lia. }
      rewrite (civil_in_era era (yoe + 1) 0 ltac:(lia) ltac:(lia)
                 (proj1 Hnext) (proj2 Hnext)).
      rewrite HL0.
      specialize (H3 Hy').
      split; [unfold L; lia|]. split; [split; reflexivity|reflexivity].
    + assert (yoe = 399) by lia. subst yoe.
      change (start_of_year 0) with 0 in *.
      change (start_of_year 399) with 145731 in *.
      replace ((era + 1) * 146097 + (0 + 0) - 719468 - 1)
        with (era * 146097 + (start_of_year 399 + 365) - 719468)
        by (change (start_of_year 399) with 145731; lia).
      replace (era * 146097 + (start_of_year 399 + 365) - 719468 + 1)
        with ((era + 1) * 146097 + (start_of_year 0 + 0) - 719468)
        by (change (start_of_year 399) with 145731;
            change (start_of_year 0) with 0; lia).
      rewrite (civil_in_era era 399 365 ltac:(lia) ltac:(lia)
                 ltac:(lia) ltac:(lia)).
      rewrite (civil_in_era (era + 1) 0 0 ltac:(lia) ltac:(lia)
                 ltac:(intros _; reflexivity) ltac:(lia)).
      change ((5 * 365 + 2) / 153) with 11.
      specialize (H4 eq_refl).
      split; [change (start_of_year 399) with 145731; lia|]. split; [split; [lia|reflexivity]|reflexivity].
Qed.

Lemma day_end_succ (tz n : Z) : day_end tz n + 1 = day_start tz (n + 1).
Proof. unfold day_end, day_start, msPerDay. lia. Qed.

Lemma local_day_day_end (tz n : Z) : local_day tz (day_end tz n) = n.
Proof.
  unfold local_day, day_end.
  replace (n * msPerDay + 86399999 - tz + tz) with (86399999 + n * msPerDay) by lia.
  rewrite Z.div_add by discriminate. reflexivity.
Qed.

(** X21: for a year after 99, [month] runs from the start of today to the
    last millisecond of the last day of the current month: the end is not
    before [now], it has the month and the year of [now], and the
    millisecond after it is the start of a first of the month. *)
Theorem X21_month_range (tz now fromDate toDate : Z) :
  local_day tz fromDate = local_day tz now ->
  99 < getFullYear tz now ->
  let range := time_range tz now fromDate toDate (lit "month") in
  fst range = day_start tz (local_day tz now)
  /\ snd range = day_end tz (month_end_day (local_day tz now))
  /\ fst range <= now <= snd range
  /\ getFullYear tz (snd range) = getFullYear tz now
  /\ getMonth tz (snd range) = getMonth tz now
  /\ getDate tz (snd range + 1) = 1.
Proof.
  intros Hf Hy range.
  pose proof (month_end_facts (local_day tz now)) as Hok.
  assert (Hfst : fst range = day_start tz (local_day tz now)).
  { unfold range.
    change (time_range tz now fromDate toDate (lit "month"))
      with (setHours tz fromDate 0 0 0 0,
            new_Date tz (getFullYear tz now) (getMonth tz now + 1) 0
              23 59 59 999).
    simpl fst. rewrite setHours_start, Hf. reflexivity. }
  assert (Hsnd : snd range = day_end tz (month_end_day (local_day tz now))).
  { unfold range.
    change (time_range tz now fromDate toDate (lit "month"))
      with (setHours tz fromDate 0 0 0 0,
            new_Date tz (getFullYear tz now) (getMonth tz now + 1) 0
              23 59 59 999).
    simpl snd. unfold new_Date, month_end_day, getFullYear, getMonth in *.
    destruct (civil_from_days (local_day tz now)) as [[y m] d].
    assert ((0 <=? y) && (y <=? 99) = false) as ->
      by (apply andb_false_iff; right; apply Z.leb_gt; exact Hy).
    replace (m - 1 + 1) with m by lia.
    unfold day_end, msPerHour, msPerMinute. lia. }
  unfold getFullYear, getMonth, getDate.
  rewrite Hfst, Hsnd, day_end_succ, local_day_day_end, local_day_day_start.
  unfold month_end_day.
  destruct (civil_from_days (local_day tz now)) as [[y m] d] eqn:Ec.
  cbv zeta in Hok.
  destruct (civil_from_days
              (days_from_civil (y + m / 12) (m mod 12 + 1) 1 - 1))
    as [[y2 m2] d2].
  destruct (civil_from_days
              (days_from_civil (y + m / 12) (m mod 12 + 1) 1 - 1 + 1))
    as [[y3 m3] d3].
  destruct Hok as (Hle & [H1 H2] & H3).
  split; [reflexivity|]. split; [reflexivity|].
  split; [|split; [exact H1|split; [congruence|exact H3]]].
  pose proof (within_local_day tz now) as Hw.
  unfold day_end, day_start, msPerDay in *. lia.
Qed.

Lemma X21_month_range_witness :
  time_range cet (jan2025 51 9 0) (jan2025 51 9 0) (jan2025 51 9 0) (lit "month")
  = (jan2025 51 0 0, jan2025 59 0 0 + 86399999).
Proof.
  destruct (X21_month_range cet (jan2025 51 9 0) (jan2025 51 9 0)
              (jan2025 51 9 0) eq_refl) as (Hf & Hs & _).
  - vm_compute. reflexivity.
  - rewrite (surjective_pairing (time_range _ _ _ _ _)), Hf, Hs.
    vm_compute. reflexivity.
Defined.

(* ================================================================== *)
(** * The timestamps of the request *)
(* ================================================================== *)

Lemma hd_split_app (sep : N) (a rest : jsstring) :
  Forall (fun c => c <> sep) a ->
  hd [] (split_on sep (a ++ rest)) = a ++ hd [] (split_on sep rest).
Proof.
  induction a as [|c a IH]; intros Hnd; [reflexivity|].
  inversion Hnd as [|? ? Hc Ha]; subst. cbn [app split_on].
  rewrite (proj2 (N.eqb_neq c sep)) by assumption.
  specialize (IH Ha).
  destruct (split_on sep (a ++ rest)) as [|h tl]; cbn [hd] in *.
  - rewrite <- IH. reflexivity.
  - rewrite IH. reflexivity.
Qed.

Lemma uint_no_dot (u : Decimal.uint) : no_dot (lit (NilEmpty.string_of_uint u)).
Proof.
  induction u; cbn [NilEmpty.string_of_uint lit]; constructor;
    try assumption; vm_compute; discriminate.
Qed.

Lemma addLeadingZeros_no_dot (n : Z) (k : nat) : no_dot (addLeadingZeros n k).
Proof.
  unfold addLeadingZeros, no_dot. cbv zeta.
  apply Forall_app. split.
  - destruct (n <? 0); repeat constructor. vm_compute. discriminate.
  - apply Forall_app. split; [|apply uint_no_dot].
    apply Forall_forall. intros c Hc. apply repeat_spec in Hc. subst c.
    discriminate.
Qed.

Lemma sign_no_dot (s : string) :
  s = "-"%string \/ s = "+"%string \/ s = "T"%string \/ s = ":"%string ->
  no_dot (lit s).
Proof.
  intros [->|[->|[->| ->]]]; repeat constructor; vm_compute; discriminate.
Qed.

(** X22: the [date[from]] and [date[to]] values are the UTC date and time
    of the whole second, without a fraction, followed by [Z]: the
    milliseconds of the instant are dropped, not rounded. *)
Theorem X22_timestamps_drop_milliseconds (t : Z) :
  iso_seconds t = iso_date_time (t / 1000) ++ lit "Z"
  /\ iso_seconds (t - t mod 1000) = iso_seconds t.
Proof.
  assert (H : forall u, iso_seconds u = iso_date_time (u / 1000) ++ lit "Z").
  { intros u. unfold iso_seconds, toISOString, iso_date_time.
    replace (u / 1000 / 86400) with (u / msPerDay)
      by (unfold msPerDay; Z.to_euclidean_division_equations; lia).
    destruct (civil_from_days (u / msPerDay)) as [[y m] d]. cbv zeta.
    replace (u mod msPerDay / msPerHour) with ((u / 1000) mod 86400 / 3600)
      by (unfold msPerDay, msPerHour; Z.to_euclidean_division_equations; lia).
    replace (u mod msPerDay mod msPerHour / msPerMinute)
      with ((u / 1000) mod 86400 mod 3600 / 60)
      by (unfold msPerDay, msPerHour, msPerMinute;
          Z.to_euclidean_division_equations; lia).
    replace (u mod msPerDay mod msPerMinute / 1000)
      with ((u / 1000) mod 86400 mod 60)
      by (unfold msPerDay, msPerMinute; Z.to_euclidean_division_equations; lia).
    f_equal.
    assert (Hyear : no_dot
              (if (0 <=? y) && (y <=? 9999) then addLeadingZeros y 4
               else (if y <? 0 then lit "-" else lit "+")
                      ++ addLeadingZeros (Z.abs y) 6)).
    { destruct ((0 <=? y) && (y <=? 9999)); [apply addLeadingZeros_no_dot|].
      apply Forall_app. split; [|apply addLeadingZeros_no_dot].
      destruct (y <? 0); apply sign_no_dot; tauto. }
    repeat (rewrite hd_split_app
              by first [exact Hyear | apply addLeadingZeros_no_dot
                       | apply sign_no_dot; tauto]).
    change (hd [] (split_on 46 (lit "." ++ ?x))) with (@nil N).
    rewrite app_nil_r. reflexivity. }
  split; [apply H|].
  rewrite !H. do 2 f_equal. Z.to_euclidean_division_equations; lia.
Qed.
